(** * coreth: atomic transactions and block acceptance

    A shallow embedding of [plugin/evm/block.go] (the [Block] methods) and of
    the export transaction ([UnsignedExportTx]: Verify, SemanticVerify, Accept,
    EVMStateTransfer and [VM.newExportTx]).

    Go values are modelled as follows.
    - [uint64], [uint32]: [Z], with the wrap-around written out ([wrap64]);
      [*big.Int]: [Z].
    - [ids.ID], [common.Hash], [common.Address], byte slices: [list Byte.byte].
    - [ids.Set]: [gset ID]; a [*ids.Set] is a location in a store of sets, so
      that two pointers to one set share its updates.
    - an [error] result: [option Error] ([None] is [nil]); a run-time panic
      (failed type assertion, index out of range): the outcome [Panicked].
    - the collaborators that are not part of these files (codec, signature
      recovery, flow checker, EVM engine, import transaction) are the fields
      of the class [Externals]; their own errors are opaque codes. *)

From Stdlib Require Import ZArith Strings.String Strings.Byte.
From stdpp Require Import base option list countable gmap sets.

Local Open Scope Z_scope.
Set Warnings "-clear-no-such-hyp".  (* raised by stdpp's solvers *)

(** ** Bytes and identifiers *)

Abbreviation bytes := (list byte).

#[global] Instance byte_eq_dec : EqDecision byte := Byte.byte_eq_dec.
#[global] Instance byte_countable : Countable byte :=
  inj_countable Byte.to_N Byte.of_N Byte.of_to_N.

(** [ids.ID] is a 32-byte array, [common.Address] a 20-byte one. *)
Abbreviation ID := (list byte) (only parsing).
Abbreviation Address := (list byte) (only parsing).
Abbreviation PublicKey := (list byte) (only parsing).

Definition zeroID : ID := replicate 32 x00.

(** [id.IsZero()] *)
Definition IsZero (id : ID) : bool := bool_decide (id = zeroID).

(** [id.Equals(other)] *)
Definition Equals (a b : ID) : bool := bool_decide (a = b).

(** ** Machine integers *)

Definition MaxUint64 : Z := 2 ^ 64 - 1.

(** Arithmetic on [uint64] wraps modulo 2^64. *)
Definition wrap64 (z : Z) : Z := z mod 2 ^ 64.

(** ** Errors *)

Inductive Error : Type :=
  | errNilTx
  | errWrongChainID
  | errNoExportOutputs
  | errWrongNetworkID
  | errWrongBlockchainID
  | errOutputsNotSorted
  | errPublicKeySignatureMismatch
  | errInsufficientFunds
  | errInvalidNonce
  | errOverflowExport
  | errInsufficientGasPrice
  | errAtomicInputConflict
  | errUnknownAtomicTxType
  | errExternal (code : N)                 (* an error of a collaborator *)
  | errPerm (e : Error)                    (* permError{e} seen as an error *)
  | errTemp (e : Error)                    (* tempError{e} seen as an error *)
  | errWrapped (msg : string) (e : Error). (* fmt.Errorf(msg + ": %w", e) *)

#[global] Instance Error_eq_dec : EqDecision Error.
Proof. solve_decision. Defined.

(** [TxError]: the tagged error of SemanticVerify. *)
Inductive TxError : Type :=
  | permError (e : Error)
  | tempError (e : Error).

#[global] Instance TxError_eq_dec : EqDecision TxError.
Proof. solve_decision. Defined.

Definition TxError_error (t : TxError) : Error :=
  match t with
  | permError e => errPerm e
  | tempError e => errTemp e
  end.

(** What a call of a Go function comes to. *)
Inductive Outcome (A : Type) : Type :=
  | Returned (a : A)
  | Panicked
  | OutOfFuel.
Arguments Returned {A} a.
Arguments Panicked {A}.
Arguments OutOfFuel {A}.

(** [safemath.Add64] *)
Definition Add64 (a b : Z) : option Z :=
  if bool_decide (a > MaxUint64 - b) then None else Some (a + b).

(** ** [big.Int.Bytes]: the absolute value as a big-endian byte slice, with no
    leading zero byte (the empty slice for 0). *)

Definition byte_of_N (n : N) : byte :=
  match Byte.of_N n with Some b => b | None => x00 end.

Fixpoint be_digits (fuel : nat) (n : N) (acc : bytes) : bytes :=
  match fuel with
  | O => acc
  | S f =>
      if (n =? 0)%N then acc
      else be_digits f (n / 256)%N (byte_of_N (n mod 256)%N :: acc)
  end.

Definition bigInt_Bytes (z : Z) : bytes :=
  let n := Z.abs_N z in be_digits (N.to_nat (N.size n)) n [].

(** Reading a big-endian byte slice back ([big.Int.SetBytes]). *)
Definition be_value (bs : bytes) : N :=
  fold_left (fun acc b => (acc * 256 + Byte.to_N b)%N) bs 0%N.

(** A [uint64] as 8 big-endian bytes ([binary.BigEndian.PutUint64]); this is
    the encoding the specification names for the acceptance index. *)
Definition be_fixed (width : nat) (z : Z) : bytes :=
  map (fun i : nat => byte_of_N (Z.to_N ((z / 256 ^ Z.of_nat (width - 1 - i)) mod 256)))
      (seq 0 width).

Definition uint64_be8 (z : Z) : bytes := be_fixed 8 z.

(** ** Data model of the atomic transactions *)

(** [EVMInput]: an EVM-side debit. *)
Record EVMInput : Type := {
  Address_ : Address;
  Amount : Z;      (* uint64 *)
  AssetID : ID;
  Nonce : Z        (* uint64 *)
}.

(** [secp256k1fx.TransferOutput] *)
Record TransferOutput : Type := {
  Amt : Z;         (* uint64 *)
  Locktime : Z;
  Threshold : Z;
  Addrs : list bytes
}.

(** [avax.TransferableOutput] *)
Record TransferableOutput : Type := {
  out_Asset : ID;
  Out : TransferOutput
}.

(** [avax.UTXO] *)
Record UTXO : Type := {
  utxo_TxID : ID;
  utxo_OutputIndex : Z;   (* uint32 *)
  utxo_Asset : ID;
  utxo_Out : TransferOutput
}.

(** [atomic.Element] *)
Record Element : Type := {
  Key : bytes;
  Value : bytes;
  Traits : list bytes
}.

(** [UnsignedExportTx], with the two fields of [avax.Metadata] that these
    files read. *)
Record UnsignedExportTx : Type := {
  meta_id : ID;                   (* Metadata: tx.ID() *)
  meta_unsignedBytes : bytes;     (* Metadata: tx.UnsignedBytes() *)
  syntacticallyVerified : bool;
  NetworkID : Z;                  (* uint32 *)
  BlockchainID : ID;
  DestinationChain : ID;
  Ins : list EVMInput;
  ExportedOutputs : list TransferableOutput
}.

Definition set_syntacticallyVerified (tx : UnsignedExportTx) : UnsignedExportTx :=
  {| meta_id := meta_id tx;
     meta_unsignedBytes := meta_unsignedBytes tx;
     syntacticallyVerified := true;
     NetworkID := NetworkID tx;
     BlockchainID := BlockchainID tx;
     DestinationChain := DestinationChain tx;
     Ins := Ins tx;
     ExportedOutputs := ExportedOutputs tx |}.

(** [avax.TransferableInput], as far as the import transaction names the
    UTXO it consumes. *)
Record TransferableInput : Type := {
  in_TxID : ID;
  in_OutputIndex : Z;    (* uint32 *)
  in_Asset : ID;
  in_Amt : Z
}.

(** [UnsignedImportTx] (its methods are not part of these files). *)
Record UnsignedImportTx : Type := {
  imp_NetworkID : Z;
  imp_BlockchainID : ID;
  SourceChain : ID;
  ImportedInputs : list TransferableInput
}.

(** The dynamic type behind the interface value [tx.UnsignedTx]. *)
Inductive UnsignedTx : Type :=
  | ImportTx (tx : UnsignedImportTx)
  | ExportTx (tx : UnsignedExportTx)
  | OtherTx.               (* a type that is not an UnsignedAtomicTx *)

(** The dynamic type behind a [verify.Verifiable] credential. *)
Inductive Verifiable : Type :=
  | Secp256k1Credential (Sigs : list bytes)
  | OtherVerifiable.

(** [Tx]: the signed wrapper. *)
Record Tx : Type := {
  UnsignedTx_ : UnsignedTx;
  Creds : list Verifiable
}.

(** The calls made on an [avax.FlowChecker], in order. *)
Inductive FlowOp : Type :=
  | Produce (asset : ID) (amount : Z)
  | Consume (asset : ID) (amount : Z).

(** ** The EVM state ([state.StateDB]) *)

(** Modelled from the spec: core/state.StateDB is not among the source files.
    The specification names a base balance per address, a multi-coin
    sub-balance per address and asset, and a nonce per address; an absent
    account has balance 0 and nonce 0. *)
Record StateDB : Type := {
  balance : gmap bytes Z;
  balanceMultiCoin : gmap (bytes * bytes) Z;
  nonce : gmap bytes Z
}.

Definition GetBalance (s : StateDB) (a : Address) : Z := default 0 (balance s !! a).

Definition GetBalanceMultiCoin (s : StateDB) (a : Address) (coin : ID) : Z :=
  default 0 (balanceMultiCoin s !! (a, coin)).

Definition GetNonce (s : StateDB) (a : Address) : Z := default 0 (nonce s !! a).

Definition SubBalance (s : StateDB) (a : Address) (amount : Z) : StateDB :=
  {| balance := <[a := GetBalance s a - amount]> (balance s);
     balanceMultiCoin := balanceMultiCoin s;
     nonce := nonce s |}.

Definition SubBalanceMultiCoin (s : StateDB) (a : Address) (coin : ID) (amount : Z) : StateDB :=
  {| balance := balance s;
     balanceMultiCoin := <[(a, coin) := GetBalanceMultiCoin s a coin - amount]> (balanceMultiCoin s);
     nonce := nonce s |}.

Definition SetNonce (s : StateDB) (a : Address) (n : Z) : StateDB :=
  {| balance := balance s;
     balanceMultiCoin := balanceMultiCoin s;
     nonce := <[a := n]> (nonce s) |}.

(** ** Stores the VM writes to *)

(** A key-value database; [db_fault] is the error every write reports while
    the database is failing (closed, disk error). *)
Record Database : Type := {
  db_data : gmap bytes bytes;
  db_fault : option N
}.

(** [db.Put(key, value)] *)
Definition Database_Put (d : Database) (k v : bytes) : option Error * Database :=
  match db_fault d with
  | Some c => (Some (errExternal c), d)
  | None => (None, {| db_data := <[k := v]> (db_data d); db_fault := None |})
  end.

(** [db.Get(key)] *)
Definition Database_Get (d : Database) (k : bytes) : option bytes := db_data d !! k.

(** The shared memory between the chains, addressed by (chain, key). *)
Record SharedMemory : Type := {
  sm_data : gmap (bytes * bytes) Element;
  sm_fault : option N
}.

(** [sm.Put(chain, elems)]: all elements or none. *)
Definition SharedMemory_Put (m : SharedMemory) (chain : ID) (elems : list Element)
  : option Error * SharedMemory :=
  match sm_fault m with
  | Some c => (Some (errExternal c), m)
  | None =>
      (None,
       {| sm_data := foldl (fun d e => <[(chain, Key e) := e]> d) (sm_data m) elems;
          sm_fault := None |})
  end.

(** [sm.Remove(chain, keys)]: all keys or none. *)
Definition SharedMemory_Remove (m : SharedMemory) (chain : ID) (keys : list bytes)
  : option Error * SharedMemory :=
  match sm_fault m with
  | Some c => (Some (errExternal c), m)
  | None =>
      (None,
       {| sm_data := foldl (fun d k => delete (chain, k) d) (sm_data m) keys;
          sm_fault := None |})
  end.

(** ** Blocks *)

(** [choices.Status] *)
Inductive Status : Type := Unknown | Processing | Rejected | Accepted.

#[global] Instance Status_eq_dec : EqDecision Status.
Proof. solve_decision. Defined.

(** An ordinary EVM transaction, as far as Verify reads it. *)
Record EthTx : Type := {
  GasPrice : Z
}.

(** [types.Block], as far as these files read it. The atomic transaction
    travels in the block's extra data. *)
Record EthBlock : Type := {
  Hash : ID;
  ParentHash : ID;
  Number : Z;                 (* *big.Int *)
  Transactions : list EthTx;
  ExtraData : option Tx
}.

(** [Block]; the [vm] field is the state threaded through the methods. *)
Record Block : Type := {
  id : ID;
  ethBlock : EthBlock
}.

(** A [snowman.Block] interface value: a [*Block] or the [missing.Block]
    sentinel. *)
Inductive SnowmanBlock : Type :=
  | IsBlock (b : Block)
  | MissingBlock (BlkID : ID).

(** [snow.Context], the fields read here. *)
Record Context : Type := {
  ctx_NetworkID : Z;
  ctx_ChainID : ID;
  XChainID : ID;
  AVAXAssetID : ID;
  IsBootstrapped : bool
}.

(** [VM]. [setStore] holds the [ids.Set] objects the input cache points to. *)
Record VM : Type := {
  ctx : Context;
  txFee : Z;
  genesisHash : ID;
  blockMap : gmap bytes Block;
  blockStatusCache : gmap bytes Status;
  blockAtomicInputCache : gmap bytes nat;
  setStore : list (gset bytes);
  acceptedDB : Database;
  sharedMemory : SharedMemory
}.

(** ** Collaborators *)

(** The code these files call but do not contain. An error of a collaborator
    is an opaque code [c], seen by the callers as [errExternal c]. *)
Class Externals : Type := {
  (** the fixed conversion rate between the two denominations *)
  x2cRate : Z;
  (** [params.MinGasPrice] *)
  MinGasPrice : Z;
  (** [in.Verify()] of an [EVMInput] *)
  EVMInput_Verify : EVMInput -> option N;
  (** [out.Verify()] of a [TransferableOutput] *)
  TransferableOutput_Verify : TransferableOutput -> option N;
  (** the Codec's order on outputs: [Less] of the sort interface *)
  outputLess : TransferableOutput -> TransferableOutput -> bool;
  (** [cred.Verify()] *)
  Verifiable_Verify : Verifiable -> option N;
  (** [crypto.FactorySECP256K1R.RecoverPublicKey(msg, sig)] *)
  RecoverPublicKey : bytes -> bytes -> sum N PublicKey;
  PublicKeyToEthAddress : PublicKey -> Address;
  (** [fc.Verify()] after the given calls on a new flow checker *)
  FlowChecker_Verify : list FlowOp -> option N;
  (** [Codec.Marshal(utxo)] *)
  Codec_Marshal : UTXO -> sum N bytes;
  (** [UTXOID.InputID()] of (TxID, OutputIndex) *)
  InputID : ID -> Z -> ID;
  (** [vm.GetSpendableCanonical(keys, assetID, amount)]: inputs and signers *)
  GetSpendableCanonical : list bytes -> ID -> Z -> sum N (list EVMInput * list (list bytes));
  (** [tx.Sign(codec, signers)]: fills the metadata and the credentials *)
  Tx_Sign : UnsignedExportTx -> list (list bytes) -> sum N (UnsignedExportTx * list Verifiable);
  (** [vm.chain.BlockState(ethBlock)] *)
  chain_BlockState : EthBlock -> sum N StateDB;
  (** [bc.Processor().Process(ethBlock, state, cfg)] *)
  Processor_Process : EthBlock -> StateDB -> option N;
  (** [vm.chain.InsertChain([ethBlock])] *)
  chain_InsertChain : EthBlock -> option N;
  (** [UnsignedImportTx.SemanticVerify(vm, stx)] *)
  ImportTx_SemanticVerify : VM -> UnsignedImportTx -> Tx -> option TxError
}.

Section Model.
Context `{Ext : Externals}.

(** ** UnsignedExportTx *)

(** [InputUTXOs] of an export transaction: the empty set. *)
Definition UnsignedExportTx_InputUTXOs (tx : UnsignedExportTx) : gset bytes := ∅.

(** A loop that returns the first error. *)
Fixpoint firstError {A : Type} (f : A -> option N) (l : list A) : option N :=
  match l with
  | [] => None
  | x :: rest =>
      match f x with
      | Some c => Some c
      | None => firstError f rest
      end
  end.

(** [avax.IsSortedTransferableOutputs(outs, Codec)]: [sort.IsSorted], false
    as soon as an element is less than the one before it. *)
Fixpoint IsSortedTransferableOutputs (outs : list TransferableOutput) : bool :=
  match outs with
  | a :: (b :: _) as rest => negb (outputLess b a) && IsSortedTransferableOutputs rest
  | _ => true
  end.

(** [tx.Verify(avmID, ctx, feeAmount, feeAssetID)]; [None] is the nil
    receiver. The second component is the receiver afterwards. *)
Definition UnsignedExportTx_Verify (tx : option UnsignedExportTx)
    (avmID : ID) (c : Context) (feeAmount : Z) (feeAssetID : ID)
  : option Error * option UnsignedExportTx :=
  match tx with
  | None => (Some errNilTx, tx)
  | Some t =>
      if syntacticallyVerified t then (None, tx)
      else if IsZero (DestinationChain t) then (Some errWrongChainID, tx)
      else if negb (Equals (DestinationChain t) avmID) then (Some errWrongChainID, tx)
      else if bool_decide (length (ExportedOutputs t) = 0%nat) then (Some errNoExportOutputs, tx)
      else if bool_decide (NetworkID t ≠ ctx_NetworkID c) then (Some errWrongNetworkID, tx)
      else if negb (Equals (ctx_ChainID c) (BlockchainID t)) then (Some errWrongBlockchainID, tx)
      else
        match firstError EVMInput_Verify (Ins t) with
        | Some e => (Some (errExternal e), tx)
        | None =>
            match firstError TransferableOutput_Verify (ExportedOutputs t) with
            | Some e => (Some (errExternal e), tx)
            | None =>
                if negb (IsSortedTransferableOutputs (ExportedOutputs t))
                then (Some errOutputsNotSorted, tx)
                else (None, Some (set_syntacticallyVerified t))
            end
        end
  end.

(** The loop over [stx.Creds] of SemanticVerify, from index [i] on. *)
Fixpoint verifyCreds (unsignedBytes : bytes) (ins : list EVMInput) (i : nat)
    (creds : list Verifiable) : Outcome (option TxError) :=
  match creds with
  | [] => Returned None
  | cred :: rest =>
      match Verifiable_Verify cred with
      | Some e => Returned (Some (permError (errExternal e)))
      | None =>
          match cred with
          | OtherVerifiable => Panicked            (* the assertion to a secp256k1fx credential *)
          | Secp256k1Credential [] => Panicked     (* Sigs[0] *)
          | Secp256k1Credential (sig :: _) =>
              match RecoverPublicKey unsignedBytes sig with
              | inl e => Returned (Some (permError (errExternal e)))
              | inr pubKey =>
                  match ins !! i with
                  | None => Panicked               (* tx.Ins[i] *)
                  | Some from =>
                      if bool_decide (Address_ from ≠ PublicKeyToEthAddress pubKey)
                      then Returned (Some (permError errPublicKeySignatureMismatch))
                      else verifyCreds unsignedBytes ins (S i) rest
                  end
              end
          end
      end
  end.

(** The calls on the flow checker, in the order SemanticVerify makes them. *)
Definition flowOps (vm : VM) (t : UnsignedExportTx) : list FlowOp :=
  Produce (AVAXAssetID (ctx vm)) (txFee vm)
  :: map (fun out => Produce (out_Asset out) (Amt (Out out))) (ExportedOutputs t)
  ++ map (fun from => Consume (AssetID from) (Amount from)) (Ins t).

(** [tx.SemanticVerify(vm, stx)] *)
Definition UnsignedExportTx_SemanticVerify (tx : option UnsignedExportTx) (vm : VM) (stx : Tx)
  : Outcome (option TxError) * option UnsignedExportTx :=
  match UnsignedExportTx_Verify tx (XChainID (ctx vm)) (ctx vm) (txFee vm) (AVAXAssetID (ctx vm)) with
  | (Some err, tx') => (Returned (Some (permError err)), tx')
  | (None, None) => (Panicked, None)
  | (None, Some t) =>
      match verifyCreds (meta_unsignedBytes t) (Ins t) 0 (Creds stx) with
      | Returned None =>
          match FlowChecker_Verify (flowOps vm t) with
          | Some e => (Returned (Some (permError (errExternal e))), Some t)
          | None => (Returned None, Some t)
          end
      | r => (r, Some t)
      end
  end.

(** The elements [tx.Accept] builds, one per exported output, from index [i]. *)
Fixpoint exportElems (txID : ID) (i : nat) (outs : list TransferableOutput)
  : sum N (list Element) :=
  match outs with
  | [] => inr []
  | out :: rest =>
      let utxo := {| utxo_TxID := txID;
                     utxo_OutputIndex := Z.of_nat i mod 2 ^ 32;
                     utxo_Asset := out_Asset out;
                     utxo_Out := Out out |} in
      match Codec_Marshal utxo with
      | inl e => inl e
      | inr utxoBytes =>
          let elem := {| Key := InputID (utxo_TxID utxo) (utxo_OutputIndex utxo);
                         Value := utxoBytes;
                         Traits := Addrs (Out out) |} in
          match exportElems txID (S i) rest with
          | inl e => inl e
          | inr elems => inr (elem :: elems)
          end
      end
  end.

(** [tx.Accept(ctx, batch)] of an export transaction. *)
Definition UnsignedExportTx_Accept (tx : UnsignedExportTx) (m : SharedMemory)
  : option Error * SharedMemory :=
  match exportElems (meta_id tx) 0 (ExportedOutputs tx) with
  | inl e => (Some (errExternal e), m)
  | inr elems => SharedMemory_Put m (DestinationChain tx) elems
  end.

(** One iteration of the loop of EVMStateTransfer. The state is returned
    also with an error: the debit is done before the nonce is compared. *)
Definition transferInput (vm : VM) (state : StateDB) (from : EVMInput)
  : option Error * StateDB :=
  let amount := Amount from * x2cRate in
  let debited :=
    if bool_decide (AssetID from = AVAXAssetID (ctx vm)) then
      if bool_decide (GetBalance state (Address_ from) < amount)
      then (Some errInsufficientFunds, state)
      else (None, SubBalance state (Address_ from) amount)
    else
      if bool_decide (GetBalanceMultiCoin state (Address_ from) (AssetID from) < amount)
      then (Some errInsufficientFunds, state)
      else (None, SubBalanceMultiCoin state (Address_ from) (AssetID from) amount) in
  match debited with
  | (Some err, state') => (Some err, state')
  | (None, state') =>
      if bool_decide (GetNonce state' (Address_ from) ≠ Nonce from)
      then (Some errInvalidNonce, state')
      else (None, SetNonce state' (Address_ from) (wrap64 (Nonce from + 1)))
  end.

(** [tx.EVMStateTransfer(vm, state)] *)
Fixpoint transferInputs (vm : VM) (state : StateDB) (ins : list EVMInput)
  : option Error * StateDB :=
  match ins with
  | [] => (None, state)
  | from :: rest =>
      match transferInput vm state from with
      | (Some err, state') => (Some err, state')
      | (None, state') => transferInputs vm state' rest
      end
  end.

Definition UnsignedExportTx_EVMStateTransfer (tx : UnsignedExportTx) (vm : VM) (state : StateDB)
  : option Error * StateDB :=
  transferInputs vm state (Ins tx).

(** [vm.newExportTx(assetID, amount, chainID, to, keys)] *)
Definition newExportTx (vm : VM) (assetID : ID) (amount : Z) (chainID : ID)
    (to : bytes) (keys : list bytes) : option Tx * option Error :=
  if negb (Equals (XChainID (ctx vm)) chainID) then (None, Some errWrongChainID)
  else
    let toBurn :=
      if bool_decide (assetID = AVAXAssetID (ctx vm))
      then Add64 amount (txFee vm)
      else Some (txFee vm) in
    match toBurn with
    | None => (None, Some errOverflowExport)
    | Some toBurn =>
        match GetSpendableCanonical keys (AVAXAssetID (ctx vm)) toBurn with
        | inl e => (None, Some (errWrapped "couldn't generate tx inputs/outputs" (errExternal e)))
        | inr (ins, signers) =>
            let more :=
              if bool_decide (assetID ≠ AVAXAssetID (ctx vm)) then
                match GetSpendableCanonical keys assetID amount with
                | inl e => inl e
                | inr (ins2, signers2) => inr (ins ++ ins2, signers ++ signers2)
                end
              else inr (ins, signers) in
            match more with
            | inl e => (None, Some (errWrapped "couldn't generate tx inputs/outputs" (errExternal e)))
            | inr (ins, signers) =>
                let utx :=
                  {| meta_id := []; meta_unsignedBytes := [];
                     syntacticallyVerified := false;
                     NetworkID := ctx_NetworkID (ctx vm);
                     BlockchainID := ctx_ChainID (ctx vm);
                     DestinationChain := chainID;
                     Ins := ins;
                     ExportedOutputs :=
                       [ {| out_Asset := assetID;
                            Out := {| Amt := amount; Locktime := 0; Threshold := 1;
                                      Addrs := [to] |} |} ] |} in
                match Tx_Sign utx signers with
                | inl e => (None, Some (errExternal e))
                | inr (utx, creds) =>
                    let '(err, utx') :=
                      UnsignedExportTx_Verify (Some utx) (XChainID (ctx vm)) (ctx vm)
                        (txFee vm) (AVAXAssetID (ctx vm)) in
                    (Some {| UnsignedTx_ := ExportTx (default utx utx'); Creds := creds |}, err)
                end
            end
        end
    end.

(** ** UnsignedImportTx *)

(** Modelled from the spec: import_tx.go is not among the source files. The
    specification says that InputUTXOs of an import transaction returns the
    ids of its ImportedInputs. *)
Definition UnsignedImportTx_InputUTXOs (tx : UnsignedImportTx) : gset bytes :=
  list_to_set (map (fun i => InputID (in_TxID i) (in_OutputIndex i)) (ImportedInputs tx)).

(** Modelled from the spec: import_tx.go is not among the source files. The
    specification says that Accept of an import transaction removes the
    imported UTXOs from the source chain's partition of the shared memory. *)
Definition UnsignedImportTx_Accept (tx : UnsignedImportTx) (m : SharedMemory)
  : option Error * SharedMemory :=
  SharedMemory_Remove m (SourceChain tx)
    (map (fun i => InputID (in_TxID i) (in_OutputIndex i)) (ImportedInputs tx)).

(** [utx.InputUTXOs()] through the interface [UnsignedAtomicTx]; [None] when
    the dynamic type does not implement it. *)
Definition InputUTXOs (u : UnsignedTx) : option (gset bytes) :=
  match u with
  | ImportTx t => Some (UnsignedImportTx_InputUTXOs t)
  | ExportTx t => Some (UnsignedExportTx_InputUTXOs t)
  | OtherTx => None
  end.

(** ** The VM's helpers *)

Definition set_blockStatusCache (vm : VM) (c : gmap bytes Status) : VM :=
  {| ctx := ctx vm; txFee := txFee vm; genesisHash := genesisHash vm;
     blockMap := blockMap vm; blockStatusCache := c;
     blockAtomicInputCache := blockAtomicInputCache vm; setStore := setStore vm;
     acceptedDB := acceptedDB vm; sharedMemory := sharedMemory vm |}.

Definition set_blockAtomicInputCache (vm : VM) (c : gmap bytes nat) : VM :=
  {| ctx := ctx vm; txFee := txFee vm; genesisHash := genesisHash vm;
     blockMap := blockMap vm; blockStatusCache := blockStatusCache vm;
     blockAtomicInputCache := c; setStore := setStore vm;
     acceptedDB := acceptedDB vm; sharedMemory := sharedMemory vm |}.

Definition set_setStore (vm : VM) (h : list (gset bytes)) : VM :=
  {| ctx := ctx vm; txFee := txFee vm; genesisHash := genesisHash vm;
     blockMap := blockMap vm; blockStatusCache := blockStatusCache vm;
     blockAtomicInputCache := blockAtomicInputCache vm; setStore := h;
     acceptedDB := acceptedDB vm; sharedMemory := sharedMemory vm |}.

Definition set_acceptedDB (vm : VM) (d : Database) : VM :=
  {| ctx := ctx vm; txFee := txFee vm; genesisHash := genesisHash vm;
     blockMap := blockMap vm; blockStatusCache := blockStatusCache vm;
     blockAtomicInputCache := blockAtomicInputCache vm; setStore := setStore vm;
     acceptedDB := d; sharedMemory := sharedMemory vm |}.

Definition set_sharedMemory (vm : VM) (m : SharedMemory) : VM :=
  {| ctx := ctx vm; txFee := txFee vm; genesisHash := genesisHash vm;
     blockMap := blockMap vm; blockStatusCache := blockStatusCache vm;
     blockAtomicInputCache := blockAtomicInputCache vm; setStore := setStore vm;
     acceptedDB := acceptedDB vm; sharedMemory := m |}.

(** Modelled from the spec: vm.go is not among the source files. The
    specification describes a block map from id to Block, in which an unknown
    id has no entry. *)
Definition getBlock (vm : VM) (blkID : ID) : option Block := blockMap vm !! blkID.

(** Modelled from the spec: vm.go is not among the source files. The
    specification describes the status cache as a map from block id to
    Status; a block with no cached decision reads as Unknown. *)
Definition getCachedStatus (vm : VM) (blkID : ID) : Status :=
  default Unknown (blockStatusCache vm !! blkID).

(** Modelled from the spec: vm.go is not among the source files. The
    specification says that a decision updates the status cache. *)
Definition updateStatus (vm : VM) (blkID : ID) (s : Status) : VM :=
  set_blockStatusCache vm (<[blkID := s]> (blockStatusCache vm)).

(** A transaction as decoding yields it: the flag [syntacticallyVerified] is
    not serialized, so it is false. *)
Definition decoded (tx : Tx) : Tx :=
  match UnsignedTx_ tx with
  | ExportTx t =>
      {| UnsignedTx_ :=
           ExportTx {| meta_id := meta_id t; meta_unsignedBytes := meta_unsignedBytes t;
                       syntacticallyVerified := false;
                       NetworkID := NetworkID t; BlockchainID := BlockchainID t;
                       DestinationChain := DestinationChain t; Ins := Ins t;
                       ExportedOutputs := ExportedOutputs t |};
         Creds := Creds tx |}
  | _ => tx
  end.

(** Modelled from the spec: vm.go is not among the source files. The
    specification says that a block carries at most one atomic transaction,
    embedded in the extra data of the EVM block and decoded from there. *)
Definition getAtomicTx (vm : VM) (b : EthBlock) : option Tx := decoded <$> ExtraData b.

(** The store of [ids.Set] objects. *)

(** [*p] for a [*ids.Set]. *)
Definition deref (vm : VM) (p : nat) : gset bytes := default ∅ (setStore vm !! p).

(** [new(ids.Set)] *)
Definition newSet (vm : VM) : nat * VM :=
  (length (setStore vm), set_setStore vm (setStore vm ++ [∅])).

(** [p.Union(s)]: adds the elements of [s] to the set [p] points to. *)
Definition Set_Union (vm : VM) (p : nat) (s : gset bytes) : VM :=
  set_setStore vm (<[p := deref vm p ∪ s]> (setStore vm)).

(** [vm.blockAtomicInputCache.Get(id)] and [Put(id, p)]; eviction from the
    bounded cache is a smaller [blockAtomicInputCache]. *)
Definition cache_Get (vm : VM) (blkID : ID) : option nat := blockAtomicInputCache vm !! blkID.

Definition cache_Put (vm : VM) (blkID : ID) (p : nat) : VM :=
  set_blockAtomicInputCache vm (<[blkID := p]> (blockAtomicInputCache vm)).

(** ** Block *)

(** [b.ID()] *)
Definition Block_ID (b : Block) : ID := id b.

(** [b.Height()] *)
Definition Block_Height (b : Block) : Z := wrap64 (Number (ethBlock b)).

(** [b.Status()] *)
Definition Block_Status (vm : VM) (b : Block) : Status :=
  match getCachedStatus vm (Block_ID b) with
  | Unknown => Processing
  | s => s
  end.

(** [b.Parent()] *)
Definition Block_Parent (vm : VM) (b : Block) : SnowmanBlock :=
  let parentID := ParentHash (ethBlock b) in
  match getBlock vm parentID with
  | Some block => IsBlock block
  | None => MissingBlock parentID
  end.

(** The methods of the interface value; the sentinel reports Unknown. *)
Definition SnowmanBlock_Status (vm : VM) (p : SnowmanBlock) : Status :=
  match p with
  | IsBlock b => Block_Status vm b
  | MissingBlock _ => Unknown
  end.

Definition SnowmanBlock_ID (p : SnowmanBlock) : ID :=
  match p with
  | IsBlock b => Block_ID b
  | MissingBlock blkID => blkID
  end.

(** [utx.Accept(vm.ctx, nil)] through the interface. *)
Definition UnsignedAtomicTx_Accept (u : UnsignedTx) (m : SharedMemory)
  : option Error * SharedMemory :=
  match u with
  | ImportTx t => UnsignedImportTx_Accept t m
  | ExportTx t => UnsignedExportTx_Accept t m
  | OtherTx => (Some errUnknownAtomicTxType, m)
  end.

(** [b.Accept()] *)
Definition Block_Accept (vm : VM) (b : Block) : option Error * VM :=
  let vm := updateStatus vm (id b) Accepted in
  match Database_Put (acceptedDB vm) (bigInt_Bytes (Number (ethBlock b))) (id b) with
  | (Some err, d) => (Some err, set_acceptedDB vm d)
  | (None, d) =>
      let vm := set_acceptedDB vm d in
      match getAtomicTx vm (ethBlock b) with
      | None => (None, vm)
      | Some tx =>
          match UnsignedTx_ tx with
          | OtherTx => (Some errUnknownAtomicTxType, vm)
          | utx =>
              let '(err, m) := UnsignedAtomicTx_Accept utx (sharedMemory vm) in
              (err, set_sharedMemory vm m)
          end
      end
  end.

(** The first loop of the conflict scan: from [p] towards the ancestors,
    until an Accepted block, the genesis block or a cached set. Returns the
    path walked (nearest first) and the pointer [inputs]. *)
Fixpoint walkAncestry (fuel : nat) (vm : VM) (p : SnowmanBlock) (path : list Block)
    (inputs : nat) : Outcome (list Block * nat) :=
  match fuel with
  | O => OutOfFuel
  | S fuel =>
      if bool_decide (SnowmanBlock_Status vm p = Accepted) then Returned (path, inputs)
      else
        match p with
        | MissingBlock _ => Panicked              (* the assertion that p is a Block *)
        | IsBlock pb =>
            if bool_decide (Hash (ethBlock pb) = genesisHash vm) then Returned (path, inputs)
            else
              match cache_Get vm (SnowmanBlock_ID p) with
              | Some ret => Returned (path, ret)
              | None =>
                  match Block_Parent vm pb with
                  | MissingBlock _ => Panicked    (* the assertion on p.Parent() *)
                  | IsBlock pp => walkAncestry fuel vm (IsBlock pp) (path ++ [pb]) inputs
                  end
              end
        end
  end.

(** The second loop: the path from its end (the farthest block) to its start;
    [rpath] is the path reversed. *)
Fixpoint memoizePath (vm : VM) (inputs : nat) (rpath : list Block) : Outcome unit * VM :=
  match rpath with
  | [] => (Returned tt, vm)
  | p :: rest =>
      let '(inputsCopy, vm) := newSet vm in
      match getAtomicTx vm (ethBlock p) with
      | Some atx =>
          match InputUTXOs (UnsignedTx_ atx) with
          | None => (Panicked, vm)                (* the assertion to UnsignedAtomicTx *)
          | Some utxos =>
              let vm := Set_Union vm inputs utxos in
              let vm := Set_Union vm inputsCopy (deref vm inputs) in
              memoizePath (cache_Put vm (Block_ID p) inputsCopy) inputs rest
          end
      | None => memoizePath (cache_Put vm (Block_ID p) inputsCopy) inputs rest
      end
  end.

(** [inputs.Contains(in)] for some [in] of the list of [utxos]. *)
Definition conflicts (vm : VM) (inputs : nat) (utxos : gset bytes) : bool :=
  existsb (fun i => bool_decide (i ∈ deref vm inputs)) (elements utxos).

(** The case [*UnsignedImportTx] of the switch in Verify, for a block that is
    not the genesis block: [Some err] is returned by Verify at once, [None]
    goes on after the switch. *)
Definition conflictScan (fuel : nat) (vm : VM) (b : Block) (atx : UnsignedImportTx)
  : Outcome (option Error) * VM :=
  let p := Block_Parent vm b in
  let '(inputs, vm) := newSet vm in
  match walkAncestry fuel vm p [] inputs with
  | OutOfFuel => (OutOfFuel, vm)
  | Panicked => (Panicked, vm)
  | Returned (path, inputs) =>
      match memoizePath vm inputs (rev path) with
      | (Returned _, vm) =>
          if conflicts vm inputs (UnsignedImportTx_InputUTXOs atx)
          then (Returned (Some errAtomicInputConflict), vm)
          else (Returned None, vm)
      | (Panicked, vm) => (Panicked, vm)
      | (OutOfFuel, vm) => (OutOfFuel, vm)
      end
  end.

(** What follows the switch: SemanticVerify, the EVM processor, and the
    insertion into the chain. *)
Definition verifyAtomicTx (vm : VM) (b : Block) (tx : Tx) (pState : StateDB)
  : Outcome (option Error) :=
  let semantic :=
    match UnsignedTx_ tx with
    | ImportTx t => Returned (ImportTx_SemanticVerify vm t tx)
    | ExportTx t => fst (UnsignedExportTx_SemanticVerify (Some t) vm tx)
    | OtherTx => Panicked
    end in
  match semantic with
  | Returned (Some err) =>
      Returned (Some (errWrapped "block atomic transaction failed verification due to"
                        (TxError_error err)))
  | Returned None =>
      match Processor_Process (ethBlock b) pState with
      | Some e =>
          Returned (Some (errWrapped "block failed verification during EVM processing due to"
                            (errExternal e)))
      | None => Returned (errExternal <$> chain_InsertChain (ethBlock b))
      end
  | Panicked => Panicked
  | OutOfFuel => OutOfFuel
  end.

(** The gas-price loop of Verify. *)
Definition gasPriceTooLow (b : Block) : bool :=
  existsb (fun tx => bool_decide (GasPrice tx < MinGasPrice)) (Transactions (ethBlock b)).

(** [b.Verify()]; [fuel] bounds the number of ancestors the scan may visit. *)
Definition Block_Verify (fuel : nat) (vm : VM) (b : Block) : Outcome (option Error) * VM :=
  if IsBootstrapped (ctx vm) && gasPriceTooLow b
  then (Returned (Some errInsufficientGasPrice), vm)
  else
    match getAtomicTx vm (ethBlock b) with
    | None => (Returned (errExternal <$> chain_InsertChain (ethBlock b)), vm)
    | Some tx =>
        match Block_Parent vm b with
        | MissingBlock _ => (Panicked, vm)        (* the assertion on b.Parent() *)
        | IsBlock parent =>
            match chain_BlockState (ethBlock parent) with
            | inl e =>
                (Returned (Some (errWrapped "failed to retrieve block state due to"
                                   (errExternal e))), vm)
            | inr pState =>
                match UnsignedTx_ tx with
                | ImportTx atx =>
                    if bool_decide (Hash (ethBlock b) = genesisHash vm)
                    then (Returned None, vm)
                    else
                      match conflictScan fuel vm b atx with
                      | (Returned None, vm) => (verifyAtomicTx vm b tx pState, vm)
                      | r => r
                      end
                | ExportTx _ => (verifyAtomicTx vm b tx pState, vm)
                | OtherTx => (Returned (Some errUnknownAtomicTxType), vm)
                end
            end
        end
    end.

End Model.

(** ** The conflict scan in the specification's words *)

Section Specification.
Context `{Ext : Externals}.

(** The input UTXOs a block consumes: those of its atomic transaction, none
    when it carries no transaction. *)
Definition blockInputs (vm : VM) (p : Block) : gset bytes :=
  match getAtomicTx vm (ethBlock p) with
  | Some tx => default ∅ (InputUTXOs (UnsignedTx_ tx))
  | None => ∅
  end.

(** The atomic transaction of [p], if any, is an import or an export. *)
Definition atomicTxKnown (vm : VM) (p : Block) : Prop :=
  forall tx, getAtomicTx vm (ethBlock p) = Some tx -> is_Some (InputUTXOs (UnsignedTx_ tx)).

(** The blocks from the block [blkID] back to, and without, the most recent
    Accepted ancestor (or the genesis block), nearest first. [None] when an
    ancestor is unknown or [fuel] blocks do not reach the end. *)
Fixpoint ancestorPath (fuel : nat) (vm : VM) (blkID : ID) : option (list Block) :=
  match fuel with
  | O => None
  | S fuel =>
      match getBlock vm blkID with
      | None => None
      | Some p =>
          if decide (Block_Status vm p = Accepted \/ Hash (ethBlock p) = genesisHash vm)
          then Some []
          else cons p <$> ancestorPath fuel vm (ParentHash (ethBlock p))
      end
  end.

(** The ancestor-input set: the union of the inputs of the blocks of a path. *)
Definition ancestorInputs (vm : VM) (path : list Block) : gset bytes :=
  ⋃ (blockInputs vm <$> path).

(** Every resident cache entry of a block of the path points to the
    cumulative set of that block: the inputs from it back to the Accepted
    ancestor. *)
Definition cacheSoundOn (vm : VM) (path : list Block) : Prop :=
  forall (k : nat) (p : Block) (l : nat),
    path !! k = Some p ->
    cache_Get vm (Block_ID p) = Some l ->
    setStore vm !! l = Some (ancestorInputs vm (drop k path)).

(** The balance an input draws on: the base balance for the native asset,
    the multi-coin balance of its asset otherwise. *)
Definition balanceOf (vm : VM) (state : StateDB) (from : EVMInput) : Z :=
  if bool_decide (AssetID from = AVAXAssetID (ctx vm))
  then GetBalance state (Address_ from)
  else GetBalanceMultiCoin state (Address_ from) (AssetID from).

(** The state after the debit of an input. *)
Definition debit (vm : VM) (state : StateDB) (from : EVMInput) : StateDB :=
  if bool_decide (AssetID from = AVAXAssetID (ctx vm))
  then SubBalance state (Address_ from) (Amount from * x2cRate)
  else SubBalanceMultiCoin state (Address_ from) (AssetID from) (Amount from * x2cRate).

(** The credential [cred] at position [i] passes the loop of SemanticVerify:
    it verifies, it is a secp256k1 credential, and the key recovered from its
    first signature over the unsigned bytes maps to the address of input [i]. *)
Definition credMatches (unsignedBytes : bytes) (ins : list EVMInput) (i : nat)
    (cred : Verifiable) : Prop :=
  Verifiable_Verify cred = None
  /\ exists sig sigs pubKey from,
       cred = Secp256k1Credential (sig :: sigs)
       /\ RecoverPublicKey unsignedBytes sig = inr pubKey
       /\ ins !! i = Some from
       /\ Address_ from = PublicKeyToEthAddress pubKey.

(** The walk of the conflict scan, started at [p], comes to a block whose
    parent is not in the block map: no block before it is Accepted, is the
    genesis block, or has a resident cache entry. *)
Inductive walksToMissing (vm : VM) : Block -> Prop :=
  | walks_here (p : Block) :
      Block_Status vm p ≠ Accepted ->
      Hash (ethBlock p) ≠ genesisHash vm ->
      cache_Get vm (Block_ID p) = None ->
      getBlock vm (ParentHash (ethBlock p)) = None ->
      walksToMissing vm p
  | walks_on (p pp : Block) :
      Block_Status vm p ≠ Accepted ->
      Hash (ethBlock p) ≠ genesisHash vm ->
      cache_Get vm (Block_ID p) = None ->
      getBlock vm (ParentHash (ethBlock p)) = Some pp ->
      walksToMissing vm pp ->
      walksToMissing vm p.

(** The part of a path the first loop walks: up to the first block with a
    resident cache entry, and that entry. *)
Fixpoint firstHit (vm : VM) (path : list Block) : list Block * option nat :=
  match path with
  | [] => ([], None)
  | p :: rest =>
      match cache_Get vm (Block_ID p) with
      | Some l => ([], Some l)
      | None => let '(walked, hit) := firstHit vm rest in (p :: walked, hit)
      end
  end.

End Specification.

(** ** The rest of the block's life cycle *)

(** [b.Reject()]. [issueTx] stands for [vm.issueTx], whose queue is not part
    of these files; the third component is the transaction handed to it. An
    error of [issueTx] is logged and dropped. *)
Definition Block_Reject (issueTx : Tx -> option N) (vm : VM) (b : Block)
  : option Error * VM * option Tx :=
  let vm := updateStatus vm (Block_ID b) Rejected in
  match getAtomicTx vm (ethBlock b) with
  | Some tx =>
      match issueTx tx with
      | Some _ => (None, vm, Some tx)     (* log.Debug *)
      | None => (None, vm, Some tx)
      end
  | None => (None, vm, None)
  end.

(** ** Further notions for the statements *)

Section Notions.
Context `{Ext : Externals}.

(** The UTXO that Accept builds for the exported output [out] at index [j]. *)
Definition exportedUTXO (tx : UnsignedExportTx) (j : nat) (out : TransferableOutput) : UTXO :=
  {| utxo_TxID := meta_id tx;
     utxo_OutputIndex := Z.of_nat j mod 2 ^ 32;
     utxo_Asset := out_Asset out;
     utxo_Out := Out out |}.

(** The key under which that UTXO goes to the shared memory. *)
Definition exportedKey (tx : UnsignedExportTx) (j : nat) : bytes :=
  InputID (meta_id tx) (Z.of_nat j mod 2 ^ 32).

End Notions.

(** Two states of the VM agree on all but the input cache and its sets. *)
Definition sameLedger (vm vm' : VM) : Prop :=
  ctx vm' = ctx vm
  /\ txFee vm' = txFee vm
  /\ genesisHash vm' = genesisHash vm
  /\ blockMap vm' = blockMap vm
  /\ blockStatusCache vm' = blockStatusCache vm
  /\ acceptedDB vm' = acceptedDB vm
  /\ sharedMemory vm' = sharedMemory vm.

(** The block map stores every block under its own id. *)
Definition keyedByID (vm : VM) : Prop :=
  forall k blk, blockMap vm !! k = Some blk -> id blk = k.

(** The block carries an atomic transaction. *)
Definition carriesAtomicTx (vm : VM) (p : Block) : Prop :=
  is_Some (getAtomicTx vm (ethBlock p)).

(** Two export transactions agree on all but the metadata. *)
Definition sameBody (t t' : UnsignedExportTx) : Prop :=
  syntacticallyVerified t' = syntacticallyVerified t
  /\ NetworkID t' = NetworkID t
  /\ BlockchainID t' = BlockchainID t
  /\ DestinationChain t' = DestinationChain t
  /\ Ins t' = Ins t
  /\ ExportedOutputs t' = ExportedOutputs t.

(** The block carries no import transaction. *)
Definition carriesNoImport (vm : VM) (p : Block) : Prop :=
  forall tx atx, getAtomicTx vm (ethBlock p) = Some tx -> UnsignedTx_ tx ≠ ImportTx atx.

(** ** A concrete chain, for the examples *)

Definition mkID (n : N) : ID := replicate 31 x00 ++ [byte_of_N n].

Fixpoint flowBalance (asset : ID) (ops : list FlowOp) : Z :=
  match ops with
  | [] => 0
  | Produce a n :: rest => (if bool_decide (a = asset) then n else 0) + flowBalance asset rest
  | Consume a n :: rest => flowBalance asset rest - (if bool_decide (a = asset) then n else 0)
  end.

Definition flowAssets (ops : list FlowOp) : list ID :=
  map (fun op => match op with Produce a _ => a | Consume a _ => a end) ops.

(** Simple stand-ins for the collaborators: a signature is the signer's
    address, an output is ordered by its amount, no asset may be produced
    beyond what is consumed, and the EVM engine accepts every block. *)
#[local] Instance sampleExt : Externals := {|
  x2cRate := 1000000000;
  MinGasPrice := 470000000000;
  EVMInput_Verify := fun _ => None;
  TransferableOutput_Verify := fun _ => None;
  outputLess := fun a b => bool_decide (Amt (Out a) < Amt (Out b));
  Verifiable_Verify := fun _ => None;
  RecoverPublicKey := fun _ sig => inr sig;
  PublicKeyToEthAddress := fun pk => pk;
  FlowChecker_Verify := fun ops =>
    if forallb (fun a => bool_decide (flowBalance a ops <= 0)) (flowAssets ops)
    then None else Some 1%N;
  Codec_Marshal := fun u => inr (utxo_TxID u ++ utxo_Asset u);
  InputID := fun txID i => txID ++ [byte_of_N (Z.to_N i)];
  GetSpendableCanonical := fun keys asset amount =>
    match keys with
    | [] => inl 2%N
    | k :: _ => inr ([ {| Address_ := k; Amount := amount; AssetID := asset; Nonce := 0 |} ], [[k]])
    end;
  Tx_Sign := fun utx signers => inr (utx, map Secp256k1Credential signers);
  chain_BlockState := fun _ => inr {| balance := ∅; balanceMultiCoin := ∅; nonce := ∅ |};
  Processor_Process := fun _ _ => None;
  chain_InsertChain := fun _ => None;
  ImportTx_SemanticVerify := fun _ _ _ => None
|}.

Definition sampleCtx (bootstrapped : bool) : Context :=
  {| ctx_NetworkID := 1; ctx_ChainID := mkID 3; XChainID := mkID 2;
     AVAXAssetID := mkID 10; IsBootstrapped := bootstrapped |}.

(** An import transaction that consumes the UTXO (txID, 0). *)
Definition importBody (txID : ID) : UnsignedImportTx :=
  {| imp_NetworkID := 1; imp_BlockchainID := mkID 3; SourceChain := mkID 2;
     ImportedInputs := [ {| in_TxID := txID; in_OutputIndex := 0;
                            in_Asset := mkID 10; in_Amt := 20 |} ] |}.

Definition importOf (txID : ID) : Tx :=
  {| UnsignedTx_ := ImportTx (importBody txID); Creds := [] |}.

Definition mkBlock (h parent : N) (height : Z) (txs : list EthTx) (atx : option Tx) : Block :=
  {| id := mkID h;
     ethBlock := {| Hash := mkID h; ParentHash := mkID parent; Number := height;
                    Transactions := txs; ExtraData := atx |} |}.

(** Genesis (accepted) <- P1 (imports U) <- P2 (no atomic tx) <- B (imports U). *)
Definition blkG : Block := mkBlock 100 0 0 [] None.
Definition blkP1 : Block := mkBlock 101 100 1 [] (Some (importOf (mkID 7))).
Definition blkP2 : Block := mkBlock 102 101 2 [] None.
Definition blkB : Block := mkBlock 103 102 3 [] (Some (importOf (mkID 7))).
(** As [blkB], with an EVM transaction below the minimum gas price. *)
Definition blkCheap : Block :=
  mkBlock 104 102 3 [ {| GasPrice := 1 |} ] (Some (importOf (mkID 7))).
(** Blocks whose parent (id 200) is unknown. *)
Definition blkOrphan : Block := mkBlock 105 200 3 [] None.
Definition blkOrphanImport : Block := mkBlock 106 200 3 [] (Some (importOf (mkID 7))).
(** A child of [blkOrphanImport]: its grandparent is unknown. *)
Definition blkOrphanChild : Block := mkBlock 107 106 4 [] (Some (importOf (mkID 8))).

Definition sampleDB : Database := {| db_data := ∅; db_fault := None |}.
Definition sampleSM : SharedMemory := {| sm_data := ∅; sm_fault := None |}.

(** G <- P1 (imports U) <- Q (imports V) <- C (imports W), and Q2, a sibling
    of Q that imports V as Q does. *)
Definition blkQ : Block := mkBlock 110 101 2 [] (Some (importOf (mkID 8))).
Definition blkC : Block := mkBlock 111 110 3 [] (Some (importOf (mkID 9))).
Definition blkQ2 : Block := mkBlock 112 101 2 [] (Some (importOf (mkID 8))).

Definition sampleVM (bootstrapped : bool) : VM :=
  {| ctx := sampleCtx bootstrapped;
     txFee := 1;
     genesisHash := mkID 100;
     blockMap := list_to_map
       (map (fun b => (id b, b)) [blkG; blkP1; blkP2; blkB; blkCheap; blkOrphan;
                                  blkOrphanImport; blkOrphanChild; blkQ; blkC; blkQ2]);
     blockStatusCache := {[ mkID 100 := Accepted ]};
     blockAtomicInputCache := ∅;
     setStore := [];
     acceptedDB := sampleDB;
     sharedMemory := sampleSM |}.

(** The same chain with a resident, sound cache entry for P1. *)
Definition sampleVMcached : VM :=
  {| ctx := sampleCtx false;
     txFee := 1;
     genesisHash := mkID 100;
     blockMap := blockMap (sampleVM false);
     blockStatusCache := {[ mkID 100 := Accepted ]};
     blockAtomicInputCache := {[ mkID 101 := 0%nat ]};
     setStore := [ {[ mkID 7 ++ [x00] ]} ];
     acceptedDB := sampleDB;
     sharedMemory := sampleSM |}.

(** The same chain with a database that fails every write. *)
Definition sampleVMfaulty : VM :=
  set_acceptedDB (sampleVM false) {| db_data := ∅; db_fault := Some 5%N |}.

Definition mkAddr (n : N) : Address := replicate 19 x00 ++ [byte_of_N n].

Definition mkInput (a : N) (amount : Z) (asset : N) (n : Z) : EVMInput :=
  {| Address_ := mkAddr a; Amount := amount; AssetID := mkID asset; Nonce := n |}.

Definition mkOutput (asset : N) (amount : Z) : TransferableOutput :=
  {| out_Asset := mkID asset;
     Out := {| Amt := amount; Locktime := 0; Threshold := 1; Addrs := [mkAddr 50] |} |}.

Definition mkExport (net : Z) (dest : ID) (ins : list EVMInput)
    (outs : list TransferableOutput) : UnsignedExportTx :=
  {| meta_id := mkID 60; meta_unsignedBytes := [x01; x02; x03];
     syntacticallyVerified := false;
     NetworkID := net; BlockchainID := mkID 3; DestinationChain := dest;
     Ins := ins; ExportedOutputs := outs |}.

(** Two inputs, of the addresses 1 and 2, and one exported output. *)
Definition exportTwoInputs : UnsignedExportTx :=
  mkExport 1 (mkID 2) [mkInput 1 6 10 0; mkInput 2 5 10 0] [mkOutput 10 10].

(** Signed for the first input only. *)
Definition signedByFirst : Tx :=
  {| UnsignedTx_ := ExportTx exportTwoInputs; Creds := [Secp256k1Credential [mkAddr 1]] |}.

(** Signed by the address 9 in the place of the first input. *)
Definition signedByOther : Tx :=
  {| UnsignedTx_ := ExportTx exportTwoInputs; Creds := [Secp256k1Credential [mkAddr 9]] |}.

(** Three credentials for the two inputs. *)
Definition signedThrice : Tx :=
  {| UnsignedTx_ := ExportTx exportTwoInputs;
     Creds := [Secp256k1Credential [mkAddr 1]; Secp256k1Credential [mkAddr 2];
               Secp256k1Credential [mkAddr 3]] |}.

(** No exported output, and the zero id as destination. *)
Definition exportNoOutputs : UnsignedExportTx := mkExport 1 zeroID [mkInput 1 6 10 0] [].

(** Outputs out of order, on another network. *)
Definition exportUnsorted : UnsignedExportTx :=
  mkExport 9 (mkID 2) [mkInput 1 16 10 0] [mkOutput 10 10; mkOutput 10 5].

(** Outputs in order. *)
Definition exportSorted : UnsignedExportTx :=
  mkExport 1 (mkID 2) [mkInput 1 16 10 0] [mkOutput 10 5; mkOutput 10 10].

(** An account of address 1 with nonce 3 and a base balance of 10 units. *)
Definition sampleState : StateDB :=
  {| balance := {[ mkAddr 1 := 10 * 1000000000 ]};
     balanceMultiCoin := ∅;
     nonce := {[ mkAddr 1 := 3 ]} |}.

(** An account that holds the largest uint64 amount, converted. *)
Definition richState : StateDB :=
  {| balance := {[ mkAddr 1 := MaxUint64 * 1000000000 ]};
     balanceMultiCoin := ∅;
     nonce := ∅ |}.

(** A second child of Q, importing what Q imports. *)
Definition blkC2 : Block := mkBlock 113 110 3 [] (Some (importOf (mkID 8))).

(** Two inputs on the address 1, with the nonces 3 and 4. *)
Definition exportTwoNonces : UnsignedExportTx :=
  mkExport 1 (mkID 2) [mkInput 1 4 10 3; mkInput 1 5 10 4] [mkOutput 10 8].

(** G <- E (an export block) <- F (an import block). *)
Definition blkE : Block := mkBlock 120 100 1 [] (Some signedByFirst).
Definition blkF : Block := mkBlock 121 120 2 [] (Some (importOf (mkID 7))).

Definition sampleVM2 : VM :=
  {| ctx := sampleCtx false;
     txFee := 1;
     genesisHash := mkID 100;
     blockMap := list_to_map (map (fun b => (id b, b)) [blkG; blkE; blkF]);
     blockStatusCache := {[ mkID 100 := Accepted ]};
     blockAtomicInputCache := ∅;
     setStore := [];
     acceptedDB := sampleDB;
     sharedMemory := sampleSM |}.

(** * Properties *)

Section Proofs.
Context `{Ext : Externals}.

(** ** EVMStateTransfer *)

Lemma GetNonce_SetNonce s a n : GetNonce (SetNonce s a n) a = n.
Proof. unfold GetNonce, SetNonce; simpl. by rewrite lookup_insert_eq. Qed.

Lemma GetBalance_SubBalance s a x : GetBalance (SubBalance s a x) a = GetBalance s a - x.
Proof. unfold GetBalance at 1, SubBalance; simpl. by rewrite lookup_insert_eq. Qed.

Lemma GetBalance_SubBalance_ne s a b x :
  a ≠ b -> GetBalance (SubBalance s a x) b = GetBalance s b.
Proof. intros. unfold GetBalance, SubBalance; simpl. by rewrite lookup_insert_ne. Qed.

Lemma GetBalanceMultiCoin_Sub s a c x :
  GetBalanceMultiCoin (SubBalanceMultiCoin s a c x) a c = GetBalanceMultiCoin s a c - x.
Proof.
  unfold GetBalanceMultiCoin at 1, SubBalanceMultiCoin; simpl. by rewrite lookup_insert_eq.
Qed.

Lemma GetBalanceMultiCoin_Sub_ne s a c b d x :
  (a, c) ≠ (b, d) ->
  GetBalanceMultiCoin (SubBalanceMultiCoin s a c x) b d = GetBalanceMultiCoin s b d.
Proof.
  intros. unfold GetBalanceMultiCoin, SubBalanceMultiCoin; simpl. by rewrite lookup_insert_ne.
Qed.

(** The three outcomes of one input. *)
Lemma transferInput_short vm state from :
  balanceOf vm state from < Amount from * x2cRate ->
  transferInput vm state from = (Some errInsufficientFunds, state).
Proof.
  unfold balanceOf, transferInput. intros H.
  case_bool_decide; rewrite bool_decide_eq_true_2; done.
Qed.

Lemma transferInput_nonce vm state from :
  Amount from * x2cRate <= balanceOf vm state from ->
  GetNonce state (Address_ from) ≠ Nonce from ->
  transferInput vm state from = (Some errInvalidNonce, debit vm state from).
Proof.
  unfold balanceOf, transferInput, debit. intros Hb Hn.
  case_bool_decide; (rewrite bool_decide_eq_false_2; [|lia]);
    rewrite bool_decide_eq_true_2; done.
Qed.

Lemma transferInput_ok vm state from :
  Amount from * x2cRate <= balanceOf vm state from ->
  GetNonce state (Address_ from) = Nonce from ->
  transferInput vm state from
  = (None, SetNonce (debit vm state from) (Address_ from) (wrap64 (Nonce from + 1))).
Proof.
  unfold balanceOf, transferInput, debit. intros Hb Hn.
  case_bool_decide; (rewrite bool_decide_eq_false_2; [|lia]);
    rewrite bool_decide_eq_false_2; auto.
Qed.

(** An input that passes had the funds and the nonce. *)
Lemma transferInput_inv vm state from state' :
  transferInput vm state from = (None, state') ->
  Amount from * x2cRate <= balanceOf vm state from
  /\ GetNonce state (Address_ from) = Nonce from.
Proof.
  intros H.
  destruct (decide (balanceOf vm state from < Amount from * x2cRate)) as [Hs|Hs].
  { by rewrite transferInput_short in H. }
  destruct (decide (GetNonce state (Address_ from) = Nonce from)) as [Hn|Hn].
  { split; [lia|done]. }
  rewrite transferInput_nonce in H; [done|lia|done].
Qed.

(** The inputs are taken in order: a list in two parts is the first part,
    then, if it passed, the second on the state it left. *)
Lemma transferInputs_app vm state l1 l2 :
  transferInputs vm state (l1 ++ l2)
  = match transferInputs vm state l1 with
    | (Some err, state') => (Some err, state')
    | (None, state') => transferInputs vm state' l2
    end.
Proof.
  revert state. induction l1 as [|from l1 IH]; intros state; simpl; [done|].
  destruct (transferInput vm state from) as [[err|] state']; [done|]. apply IH.
Qed.

Lemma transferInputs_prefix vm state l1 l2 state' :
  transferInputs vm state (l1 ++ l2) = (None, state') ->
  exists s1, transferInputs vm state l1 = (None, s1) /\ transferInputs vm s1 l2 = (None, state').
Proof.
  rewrite transferInputs_app.
  destruct (transferInputs vm state l1) as [[err|] s1]; [done|]. eauto.
Qed.

(** C4: EVMStateTransfer takes the inputs of an export transaction in
    declaration order. For each input, with [amount = Amount * x2cRate]: a
    balance below [amount] (the base balance for the native asset, the
    multi-coin balance of the asset otherwise) returns errInsufficientFunds
    and leaves the state; otherwise exactly [amount] is debited from that
    balance, and then a nonce different from the input's returns
    errInvalidNonce, while an equal nonce sets the account nonce to Nonce+1
    (in uint64 arithmetic). A transfer that returns nil found, at every
    input, the funds and the nonce. *)
Theorem EVMStateTransfer_per_input (vm : VM) :
  (forall tx state from rest,
      Ins tx = from :: rest ->
      UnsignedExportTx_EVMStateTransfer tx vm state
      = match transferInput vm state from with
        | (Some err, state') => (Some err, state')
        | (None, state') => transferInputs vm state' rest
        end)
  /\ (forall state from,
        balanceOf vm state from < Amount from * x2cRate ->
        transferInput vm state from = (Some errInsufficientFunds, state))
  /\ (forall state from,
        Amount from * x2cRate <= balanceOf vm state from ->
        balanceOf vm (debit vm state from) from = balanceOf vm state from - Amount from * x2cRate
        /\ (AssetID from = AVAXAssetID (ctx vm) ->
            balanceMultiCoin (debit vm state from) = balanceMultiCoin state)
        /\ (AssetID from ≠ AVAXAssetID (ctx vm) ->
            balance (debit vm state from) = balance state)
        /\ (GetNonce state (Address_ from) ≠ Nonce from ->
            transferInput vm state from = (Some errInvalidNonce, debit vm state from))
        /\ (GetNonce state (Address_ from) = Nonce from ->
            exists state',
              transferInput vm state from = (None, state')
              /\ GetNonce state' (Address_ from) = wrap64 (Nonce from + 1)
              /\ (Nonce from < MaxUint64 -> 0 <= Nonce from ->
                  GetNonce state' (Address_ from) = Nonce from + 1)
              /\ balance state' = balance (debit vm state from)
              /\ balanceMultiCoin state' = balanceMultiCoin (debit vm state from)))
  /\ (forall tx state state' l1 from l2,
        Ins tx = l1 ++ from :: l2 ->
        UnsignedExportTx_EVMStateTransfer tx vm state = (None, state') ->
        exists s1,
          transferInputs vm state l1 = (None, s1)
          /\ Amount from * x2cRate <= balanceOf vm s1 from
          /\ GetNonce s1 (Address_ from) = Nonce from).
Proof.
  split; [|split; [|split]].
  - intros tx state from rest Hins.
    unfold UnsignedExportTx_EVMStateTransfer. by rewrite Hins.
  - intros state from. apply transferInput_short.
  - intros state from Hb.
    split; [|split; [|split; [|split]]].
    + unfold balanceOf, debit. case_bool_decide.
      * apply GetBalance_SubBalance.
      * apply GetBalanceMultiCoin_Sub.
    + intros Ha. unfold debit. by rewrite bool_decide_eq_true_2.
    + intros Ha. unfold debit. by rewrite bool_decide_eq_false_2.
    + by apply transferInput_nonce.
    + intros Hn. eexists. split; [by apply transferInput_ok|].
      split; [apply GetNonce_SetNonce|]. split; [|done].
      intros Hlt Hge. rewrite GetNonce_SetNonce. unfold wrap64, MaxUint64 in *.
      apply Z.mod_small. lia.
  - intros tx state state' l1 from l2 Hins H.
    unfold UnsignedExportTx_EVMStateTransfer in H. rewrite Hins in H.
    apply transferInputs_prefix in H as (s1 & H1 & H2).
    exists s1. split; [done|]. simpl in H2.
    destruct (transferInput vm s1 from) as [[err|] s2] eqn:Hstep; [done|].
    by apply transferInput_inv in Hstep.
Qed.

(** ** The debit is exact; where errOverflowExport comes from *)

Lemma transferInput_debits vm state from state' :
  transferInput vm state from = (None, state') ->
  balanceOf vm state' from = balanceOf vm state from - Amount from * x2cRate.
Proof.
  intros H. destruct (transferInput_inv _ _ _ _ H) as [Hb Hn].
  rewrite transferInput_ok in H by done. injection H as <-.
  unfold balanceOf, debit, SetNonce, GetBalance, GetBalanceMultiCoin, SubBalance,
    SubBalanceMultiCoin.
  case_bool_decide; simpl; by rewrite lookup_insert_eq.
Qed.

Lemma transferInput_error vm state from err state' :
  transferInput vm state from = (Some err, state') ->
  err = errInsufficientFunds \/ err = errInvalidNonce.
Proof.
  unfold transferInput. intros H.
  repeat case_bool_decide; simpl in H; inversion H; auto.
Qed.

Lemma transferInputs_error vm state ins err state' :
  transferInputs vm state ins = (Some err, state') ->
  err = errInsufficientFunds \/ err = errInvalidNonce.
Proof.
  revert state. induction ins as [|from rest IH]; intros state; simpl; [done|].
  destruct (transferInput vm state from) as [[e|] s] eqn:Hstep.
  - intros [= <- <-]. by eapply transferInput_error.
  - apply IH.
Qed.

#[local] Arguments UnsignedExportTx_Verify : simpl never.

(** The errors of the syntactic check. *)
Lemma Verify_errors tx avmID c fee feeAsset err :
  fst (UnsignedExportTx_Verify tx avmID c fee feeAsset) = Some err ->
  err ∈ [errNilTx; errWrongChainID; errNoExportOutputs; errWrongNetworkID;
         errWrongBlockchainID; errOutputsNotSorted]
  \/ exists code, err = errExternal code.
Proof.
  unfold UnsignedExportTx_Verify. destruct tx as [t|]; simpl.
  2: { intros [= <-]. left. set_solver. }
  repeat (match goal with
          | |- context [if ?b then _ else _] => destruct b
          | |- context [match ?o with Some _ => _ | None => _ end] => destruct o
          end; simpl);
    intros [= <-]; try (left; set_solver); right; eauto.
Qed.

(** C7, as the code has it: the debit of an input that passes is exactly
    [Amount * x2cRate], computed on unbounded integers, so there is no
    overflow to report; EVMStateTransfer never returns errOverflowExport.
    That error comes from newExportTx alone, exactly when the destination is
    the X-Chain, the asset is the native one and amount + txFee leaves the
    range of uint64. *)
Theorem export_debit_exact_and_overflow (vm : VM) :
  (forall state from state',
      transferInput vm state from = (None, state') ->
      balanceOf vm state' from = balanceOf vm state from - Amount from * x2cRate)
  /\ (forall tx state,
        fst (UnsignedExportTx_EVMStateTransfer tx vm state) ≠ Some errOverflowExport)
  /\ (forall assetID amount chainID to keys,
        snd (newExportTx vm assetID amount chainID to keys) = Some errOverflowExport
        <-> XChainID (ctx vm) = chainID
            /\ assetID = AVAXAssetID (ctx vm)
            /\ amount + txFee vm > MaxUint64).
Proof.
  split; [|split].
  - apply transferInput_debits.
  - intros tx state. unfold UnsignedExportTx_EVMStateTransfer.
    destruct (transferInputs vm state (Ins tx)) as [[err|] s] eqn:H; simpl; [|done].
    apply transferInputs_error in H as [-> | ->]; done.
  - intros assetID amount chainID to keys. unfold newExportTx, Equals, Add64.
    case_bool_decide as Hchain; simpl; [|naive_solver].
    case_bool_decide as Hasset.
    + case_bool_decide as Hover; simpl.
      * split; [intros _|done]. repeat split; [done..|lia].
      * split; [|intros (_ & _ & ?); lia].
        rewrite bool_decide_eq_false_2 by (intros ?; done).
        destruct (GetSpendableCanonical _ _ _) as [e|[ins signers]]; simpl; [done|].
        destruct (Tx_Sign _ _) as [e|[utx creds]]; simpl; [done|].
        destruct (UnsignedExportTx_Verify (Some utx) _ _ _ _) as [err utx'] eqn:HV; simpl.
        intros ->.
        pose proof (Verify_errors (Some utx) (XChainID (ctx vm)) (ctx vm) (txFee vm)
                      (AVAXAssetID (ctx vm)) errOverflowExport) as HE.
        rewrite HV in HE. destruct (HE eq_refl) as [Hin|[code ?]]; [|done].
        set_solver.
    + split; [|naive_solver].
      rewrite bool_decide_eq_true_2 by done.
      destruct (GetSpendableCanonical keys (AVAXAssetID (ctx vm)) (txFee vm))
        as [e|[ins signers]]; simpl; [done|].
      destruct (GetSpendableCanonical keys assetID amount) as [e|[ins2 signers2]];
        simpl; [done|].
      destruct (Tx_Sign _ _) as [e|[utx creds]]; simpl; [done|].
      destruct (UnsignedExportTx_Verify (Some utx) _ _ _ _) as [err utx'] eqn:HV; simpl.
      intros ->.
      pose proof (Verify_errors (Some utx) (XChainID (ctx vm)) (ctx vm) (txFee vm)
                    (AVAXAssetID (ctx vm)) errOverflowExport) as HE.
      rewrite HV in HE. destruct (HE eq_refl) as [Hin|[code ?]]; [|done].
      set_solver.
Qed.

(** ** The syntactic check of an export transaction *)

(** Sorted: no output is less than the one before it. *)
Lemma IsSorted_adjacent (outs : list TransferableOutput) :
  IsSortedTransferableOutputs outs = true
  <-> forall (i : nat) a b, outs !! i = Some a -> outs !! S i = Some b -> outputLess b a = false.
Proof.
  induction outs as [|a [|b rest] IH].
  - split; [intros _ i a b H; by destruct i|done].
  - split; [intros _ [|i] x y H1 H2; simplify_eq/=; by destruct i|done].
  - change (IsSortedTransferableOutputs (a :: b :: rest))
      with (negb (outputLess b a) && IsSortedTransferableOutputs (b :: rest)).
    rewrite andb_true_iff, negb_true_iff, IH. split.
    + intros [Hab Hrest] [|i] x y H1 H2; simplify_eq/=; [done|]. by eapply Hrest.
    + intros H. split; [by apply (H 0%nat)|].
      intros i x y H1 H2. by apply (H (S i)).
Qed.

(** C6, as the code has it: for a transaction that is not nil, not yet
    marked as verified, and whose destination is the given, non-zero chain:
    an empty ExportedOutputs returns errNoExportOutputs; with matching
    network and blockchain ids and inputs and outputs that verify, outputs
    that are not sorted return errOutputsNotSorted, and a non-empty sorted
    list returns nil and marks the transaction as verified. A transaction
    not yet marked that passes has non-empty, sorted outputs. *)
Theorem Verify_outputs_checks (t : UnsignedExportTx) (avmID : ID) (c : Context)
    (feeAmount : Z) (feeAssetID : ID) :
  syntacticallyVerified t = false ->
  DestinationChain t = avmID ->
  avmID ≠ zeroID ->
  (ExportedOutputs t = [] ->
   UnsignedExportTx_Verify (Some t) avmID c feeAmount feeAssetID
   = (Some errNoExportOutputs, Some t))
  /\ (ExportedOutputs t ≠ [] ->
      NetworkID t = ctx_NetworkID c ->
      ctx_ChainID c = BlockchainID t ->
      firstError EVMInput_Verify (Ins t) = None ->
      firstError TransferableOutput_Verify (ExportedOutputs t) = None ->
      (IsSortedTransferableOutputs (ExportedOutputs t) = false ->
       UnsignedExportTx_Verify (Some t) avmID c feeAmount feeAssetID
       = (Some errOutputsNotSorted, Some t))
      /\ (IsSortedTransferableOutputs (ExportedOutputs t) = true ->
          UnsignedExportTx_Verify (Some t) avmID c feeAmount feeAssetID
          = (None, Some (set_syntacticallyVerified t))))
  /\ (fst (UnsignedExportTx_Verify (Some t) avmID c feeAmount feeAssetID) = None ->
      ExportedOutputs t ≠ [] /\ IsSortedTransferableOutputs (ExportedOutputs t) = true).
Proof.
  intros Hflag Hdest Hnz.
  assert (Hz : IsZero (DestinationChain t) = false).
  { unfold IsZero. apply bool_decide_eq_false_2. congruence. }
  assert (He : Equals (DestinationChain t) avmID = true).
  { unfold Equals. by apply bool_decide_eq_true_2. }
  unfold UnsignedExportTx_Verify. rewrite Hflag, Hz, He. simpl.
  split; [|split].
  - intros ->. done.
  - intros Hne Hnet Hchain Hins Houts.
    rewrite bool_decide_eq_false_2 by (by destruct (ExportedOutputs t)).
    rewrite bool_decide_eq_false_2 by (intros ?; done).
    unfold Equals. rewrite bool_decide_eq_true_2 by done. simpl.
    rewrite Hins, Houts. split; intros ->; done.
  - case_bool_decide as Hlen; [done|].
    repeat (match goal with
            | |- context [if ?b then _ else _] => destruct b eqn:?
            | |- context [match ?o with Some _ => _ | None => _ end] => destruct o
            end; simpl); try done.
    intros _. split.
    + intros Hnil. by rewrite Hnil in Hlen.
    + by apply negb_false_iff.
Qed.

(** ** The signature loop of SemanticVerify *)

Lemma verifyCreds_app ub ins k l1 l2 :
  verifyCreds ub ins k (l1 ++ l2)
  = match verifyCreds ub ins k l1 with
    | Returned None => verifyCreds ub ins (k + length l1) l2
    | r => r
    end.
Proof.
  revert k. induction l1 as [|cred l1 IH]; intros k; simpl.
  { by rewrite Nat.add_0_r. }
  destruct (Verifiable_Verify cred); [done|].
  destruct cred as [[|sig sigs]|]; [done| |done].
  destruct (RecoverPublicKey ub sig); [done|].
  destruct (ins !! k); [|done].
  case_bool_decide; [done|].
  rewrite IH. by replace (S k + length l1)%nat with (k + S (length l1))%nat by lia.
Qed.

(** The loop passes exactly when every credential matches the input at its
    own position. *)
Lemma verifyCreds_ok_iff ub ins k creds :
  verifyCreds ub ins k creds = Returned None
  <-> forall (i : nat) cred, creds !! i = Some cred -> credMatches ub ins (k + i) cred.
Proof.
  revert k. induction creds as [|cred rest IH]; intros k; simpl.
  { split; [intros _ i cred H; by destruct i|done]. }
  split.
  - intros H [|i] c Hc; simplify_eq/=.
    + rewrite Nat.add_0_r. unfold credMatches.
      destruct (Verifiable_Verify c); [done|].
      destruct c as [[|sig sigs]|]; [done| |done].
      destruct (RecoverPublicKey ub sig) as [|pk] eqn:Hr; [done|].
      destruct (ins !! k) as [from|] eqn:Hi; [|done].
      case_bool_decide as Ha; [done|].
      split; [done|]. exists sig, sigs, pk, from. repeat split; try done.
    + destruct (Verifiable_Verify cred); [done|].
      destruct cred as [[|sig sigs]|]; [done| |done].
      destruct (RecoverPublicKey ub sig); [done|].
      destruct (ins !! k); [|done].
      case_bool_decide; [done|].
      replace (k + S i)%nat with (S k + i)%nat by lia. by eapply IH.
  - intros H.
    destruct (H 0%nat cred eq_refl) as (Hv & sig & sigs & pk & from & -> & Hr & Hi & Ha).
    rewrite Nat.add_0_r in Hi. rewrite Hv, Hr, Hi.
    rewrite bool_decide_eq_false_2 by (intros ?; done).
    apply IH. intros i c Hc.
    replace (S k + i)%nat with (k + S i)%nat by lia. by apply H.
Qed.

(** A mismatch reported by the loop is a mismatch at some position. *)
Lemma verifyCreds_mismatch_inv ub ins k creds :
  verifyCreds ub ins k creds = Returned (Some (permError errPublicKeySignatureMismatch)) ->
  exists (i : nat) sig sigs pk from,
    creds !! i = Some (Secp256k1Credential (sig :: sigs))
    /\ RecoverPublicKey ub sig = inr pk
    /\ ins !! (k + i)%nat = Some from
    /\ Address_ from ≠ PublicKeyToEthAddress pk.
Proof.
  revert k. induction creds as [|cred rest IH]; intros k; simpl; [done|].
  destruct (Verifiable_Verify cred); [done|].
  destruct cred as [[|sig sigs]|]; [done| |done].
  destruct (RecoverPublicKey ub sig) as [|pk] eqn:Hr; [done|].
  destruct (ins !! k) as [from|] eqn:Hi; [|done].
  case_bool_decide as Ha.
  - intros _. exists 0%nat, sig, sigs, pk, from. by rewrite Nat.add_0_r.
  - intros H. apply IH in H as (i & sig' & sigs' & pk' & from' & ? & ? & ? & ?).
    exists (S i), sig', sigs', pk', from'.
    by replace (k + S i)%nat with (S k + i)%nat by lia.
Qed.

(** The loop reads no input at or beyond the number of credentials. *)
Lemma verifyCreds_take ub ins k creds :
  verifyCreds ub ins k creds = verifyCreds ub (take (k + length creds) ins) k creds.
Proof.
  revert k. induction creds as [|cred rest IH]; intros k; simpl; [done|].
  destruct (Verifiable_Verify cred); [done|].
  destruct cred as [[|sig sigs]|]; [done| |done].
  destruct (RecoverPublicKey ub sig); [done|].
  rewrite lookup_take_lt by lia.
  destruct (ins !! k); [|done].
  case_bool_decide; [done|].
  rewrite IH. by replace (S k + length rest)%nat with (k + S (length rest))%nat by lia.
Qed.

(** The syntactic check leaves the transaction, but for the flag. *)
Lemma Verify_ok_tx t avmID c fee feeAsset tx' :
  UnsignedExportTx_Verify (Some t) avmID c fee feeAsset = (None, tx') ->
  tx' = Some t \/ tx' = Some (set_syntacticallyVerified t).
Proof.
  unfold UnsignedExportTx_Verify.
  repeat (match goal with
          | |- context [if ?b then _ else _] => destruct b
          | |- context [match ?o with Some _ => _ | None => _ end] => destruct o
          end; simpl);
    intros [= <-]; auto.
Qed.

(** SemanticVerify after a syntactic check that passes: the signature loop,
    then the flow check. *)
Lemma SemanticVerify_unfold t vm stx :
  fst (UnsignedExportTx_Verify (Some t) (XChainID (ctx vm)) (ctx vm) (txFee vm)
         (AVAXAssetID (ctx vm))) = None ->
  fst (UnsignedExportTx_SemanticVerify (Some t) vm stx)
  = match verifyCreds (meta_unsignedBytes t) (Ins t) 0 (Creds stx) with
    | Returned None =>
        match FlowChecker_Verify (flowOps vm t) with
        | Some e => Returned (Some (permError (errExternal e)))
        | None => Returned None
        end
    | r => r
    end.
Proof.
  unfold UnsignedExportTx_SemanticVerify.
  destruct (UnsignedExportTx_Verify _ _ _ _ _) as [err tx'] eqn:HV. simpl.
  intros ->. apply Verify_ok_tx in HV as [-> | ->]; simpl.
  - destruct (verifyCreds _ _ _ _) as [[e|]| |]; try done.
    by destruct (FlowChecker_Verify _).
  - change (flowOps vm (set_syntacticallyVerified t)) with (flowOps vm t).
    destruct (verifyCreds _ _ _ _) as [[e|]| |]; try done.
    by destruct (FlowChecker_Verify _).
Qed.

Lemma SemanticVerify_Verify_error t vm stx err :
  fst (UnsignedExportTx_Verify (Some t) (XChainID (ctx vm)) (ctx vm) (txFee vm)
         (AVAXAssetID (ctx vm))) = Some err ->
  fst (UnsignedExportTx_SemanticVerify (Some t) vm stx) = Returned (Some (permError err)).
Proof.
  unfold UnsignedExportTx_SemanticVerify.
  destruct (UnsignedExportTx_Verify _ _ _ _ _) as [e tx'] eqn:HV. simpl.
  by intros ->.
Qed.

(** SemanticVerify returns nil only when every credential matches the input
    at its position. *)
Lemma SemanticVerify_nil_inv t vm stx :
  fst (UnsignedExportTx_SemanticVerify (Some t) vm stx) = Returned None ->
  forall (i : nat) cred,
    Creds stx !! i = Some cred ->
    credMatches (meta_unsignedBytes t) (Ins t) i cred.
Proof.
  destruct (fst (UnsignedExportTx_Verify (Some t) (XChainID (ctx vm)) (ctx vm) (txFee vm)
                   (AVAXAssetID (ctx vm)))) as [err|] eqn:HV.
  { by rewrite (SemanticVerify_Verify_error _ _ _ _ HV). }
  rewrite (SemanticVerify_unfold _ _ _ HV).
  intros H i cred Hc.
  destruct (verifyCreds _ _ _ _) as [[e|]| |] eqn:Hloop; try done.
  by apply (proj1 (verifyCreds_ok_iff _ _ _ _) Hloop i cred Hc).
Qed.

(** C5: SemanticVerify of an export transaction returns nil only if every
    credential [i] is a secp256k1 credential whose first signature, over the
    unsigned bytes of the transaction, recovers a public key whose EVM
    address is [Ins[i].Address]. When the syntactic check and the credentials
    before [i] pass and the key recovered from credential [i] maps to another
    address, the result is the permanent error errPublicKeySignatureMismatch;
    and that error is returned for such a mismatch only. *)
Theorem SemanticVerify_signature_binding (t : UnsignedExportTx) (vm : VM) (stx : Tx) :
  (fst (UnsignedExportTx_SemanticVerify (Some t) vm stx) = Returned None ->
   forall (i : nat) cred,
     Creds stx !! i = Some cred ->
     credMatches (meta_unsignedBytes t) (Ins t) i cred)
  /\ (forall (i : nat) sig sigs pubKey from,
        fst (UnsignedExportTx_Verify (Some t) (XChainID (ctx vm)) (ctx vm) (txFee vm)
               (AVAXAssetID (ctx vm))) = None ->
        verifyCreds (meta_unsignedBytes t) (Ins t) 0 (take i (Creds stx)) = Returned None ->
        Creds stx !! i = Some (Secp256k1Credential (sig :: sigs)) ->
        Verifiable_Verify (Secp256k1Credential (sig :: sigs)) = None ->
        RecoverPublicKey (meta_unsignedBytes t) sig = inr pubKey ->
        Ins t !! i = Some from ->
        Address_ from ≠ PublicKeyToEthAddress pubKey ->
        fst (UnsignedExportTx_SemanticVerify (Some t) vm stx)
        = Returned (Some (permError errPublicKeySignatureMismatch)))
  /\ (fst (UnsignedExportTx_SemanticVerify (Some t) vm stx)
      = Returned (Some (permError errPublicKeySignatureMismatch)) ->
      exists (i : nat) sig sigs pubKey from,
        Creds stx !! i = Some (Secp256k1Credential (sig :: sigs))
        /\ RecoverPublicKey (meta_unsignedBytes t) sig = inr pubKey
        /\ Ins t !! i = Some from
        /\ Address_ from ≠ PublicKeyToEthAddress pubKey).
Proof.
  destruct (fst (UnsignedExportTx_Verify (Some t) (XChainID (ctx vm)) (ctx vm) (txFee vm)
                   (AVAXAssetID (ctx vm)))) as [err|] eqn:HV.
  - rewrite (SemanticVerify_Verify_error _ _ _ _ HV).
    split; [done|]. split; [done|].
    intros [= ->].
    pose proof (Verify_errors (Some t) (XChainID (ctx vm)) (ctx vm) (txFee vm)
                  (AVAXAssetID (ctx vm)) errPublicKeySignatureMismatch HV) as [Hin|[c ?]];
      [set_solver|done].
  - rewrite (SemanticVerify_unfold _ _ _ HV).
    split; [|split].
    + rewrite <- (SemanticVerify_unfold _ _ _ HV). apply SemanticVerify_nil_inv.
    + intros i sig sigs pk from _ Hpre Hi Hv Hr Hin Ha.
      rewrite <- (take_drop_middle _ _ _ Hi), verifyCreds_app, Hpre. simpl.
      apply lookup_lt_Some in Hi as Hlt.
      rewrite length_take, Nat.min_l by lia.
      rewrite Hv, Hr, Hin. by rewrite bool_decide_eq_true_2.
    + intros H.
      destruct (verifyCreds _ _ _ _) as [[e|]| |] eqn:Hloop; try done.
      * injection H as ->. by apply verifyCreds_mismatch_inv in Hloop.
      * by destruct (FlowChecker_Verify _).
Qed.

(** C8: the loop of SemanticVerify runs over the credentials and reads
    [Ins] at the credential's position. It depends on the first
    [len(Creds)] inputs only, so with fewer credentials than inputs the
    inputs beyond them are not checked against any signature and
    SemanticVerify returns nil as soon as the credentials present match.
    With more credentials than inputs SemanticVerify never returns nil, and
    the credential at position [len(Ins)], once it is reached and its key
    recovered, indexes [Ins] out of range: a panic. *)
Theorem SemanticVerify_indexes_by_credential (t : UnsignedExportTx) (vm : VM) (stx : Tx) :
  (forall ins',
      take (length (Creds stx)) ins' = take (length (Creds stx)) (Ins t) ->
      verifyCreds (meta_unsignedBytes t) ins' 0 (Creds stx)
      = verifyCreds (meta_unsignedBytes t) (Ins t) 0 (Creds stx))
  /\ (fst (UnsignedExportTx_Verify (Some t) (XChainID (ctx vm)) (ctx vm) (txFee vm)
             (AVAXAssetID (ctx vm))) = None ->
      (forall (i : nat) cred,
          Creds stx !! i = Some cred ->
          credMatches (meta_unsignedBytes t) (take (length (Creds stx)) (Ins t)) i cred) ->
      FlowChecker_Verify (flowOps vm t) = None ->
      fst (UnsignedExportTx_SemanticVerify (Some t) vm stx) = Returned None)
  /\ ((length (Ins t) < length (Creds stx))%nat ->
      fst (UnsignedExportTx_SemanticVerify (Some t) vm stx) ≠ Returned None)
  /\ ((length (Ins t) < length (Creds stx))%nat ->
      fst (UnsignedExportTx_Verify (Some t) (XChainID (ctx vm)) (ctx vm) (txFee vm)
             (AVAXAssetID (ctx vm))) = None ->
      (forall (i : nat) cred,
          (i <= length (Ins t))%nat ->
          Creds stx !! i = Some cred ->
          Verifiable_Verify cred = None
          /\ exists sig sigs pubKey,
               cred = Secp256k1Credential (sig :: sigs)
               /\ RecoverPublicKey (meta_unsignedBytes t) sig = inr pubKey
               /\ forall from, Ins t !! i = Some from ->
                               Address_ from = PublicKeyToEthAddress pubKey) ->
      fst (UnsignedExportTx_SemanticVerify (Some t) vm stx) = Panicked).
Proof.
  split; [|split; [|split]].
  - intros ins' Htake.
    rewrite (verifyCreds_take _ ins'), (verifyCreds_take _ (Ins t)). simpl. by rewrite Htake.
  - intros HV Hm Hflow. rewrite (SemanticVerify_unfold _ _ _ HV).
    rewrite verifyCreds_take. simpl.
    rewrite (proj2 (verifyCreds_ok_iff _ _ 0 _) Hm). by rewrite Hflow.
  - intros Hlen H.
    pose proof (SemanticVerify_nil_inv _ _ _ H) as H'.
    destruct (lookup_lt_is_Some_2 (Creds stx) (length (Ins t)) Hlen) as [cred Hc].
    destruct (H' _ _ Hc) as (_ & sig & sigs & pk & from & _ & _ & Hi & _).
    apply lookup_lt_Some in Hi. lia.
  - intros Hlen HV Hgood. rewrite (SemanticVerify_unfold _ _ _ HV).
    destruct (lookup_lt_is_Some_2 (Creds stx) (length (Ins t)) Hlen) as [cred Hc].
    rewrite <- (take_drop_middle _ _ _ Hc), verifyCreds_app.
    assert (Hpre : verifyCreds (meta_unsignedBytes t) (Ins t) 0
                     (take (length (Ins t)) (Creds stx)) = Returned None).
    { apply verifyCreds_ok_iff. intros i c Hi. simpl.
      apply lookup_take_Some in Hi as [Hi Hlt].
      destruct (Hgood i c ltac:(lia) Hi) as (Hv & sig & sigs & pk & -> & Hr & Ha).
      destruct (lookup_lt_is_Some_2 (Ins t) i Hlt) as [from Hfrom].
      split; [done|]. exists sig, sigs, pk, from. repeat split; auto. }
    rewrite Hpre. simpl. rewrite length_take, Nat.min_l by lia.
    destruct (Hgood _ cred (le_n _) Hc) as (Hv & sig & sigs & pk & -> & Hr & _).
    rewrite Hv, Hr. by rewrite lookup_ge_None_2.
Qed.

(** ** The acceptance index *)

Lemma byte_of_N_to_N (n : N) : (n < 256)%N -> Byte.to_N (byte_of_N n) = n.
Proof.
  intros Hn. unfold byte_of_N. destruct (Byte.of_N n) as [b|] eqn:Hb.
  - by apply Byte.to_of_N.
  - apply Byte.of_N_None_iff in Hb. lia.
Qed.

Lemma be_value_snoc (ds : bytes) (d : byte) :
  be_value (ds ++ [d]) = (be_value ds * 256 + Byte.to_N d)%N.
Proof. unfold be_value. by rewrite fold_left_app. Qed.

(** With fuel for every bit of [n], the digits of [n] are put before [acc]. *)
Lemma be_digits_spec (fuel : nat) (n : N) (acc : bytes) :
  (n < 2 ^ N.of_nat fuel)%N ->
  exists ds, be_digits fuel n acc = ds ++ acc /\ be_value ds = n.
Proof.
  revert n acc. induction fuel as [|fuel IH]; intros n acc Hn.
  - exists []. simpl in *. split; [done|]. unfold be_value. simpl. lia.
  - simpl. destruct (N.eqb_spec n 0) as [->|Hnz].
    { by exists []. }
    destruct (IH (n / 256)%N (byte_of_N (n mod 256) :: acc)) as (ds & Hds & Hval).
    { apply N.Div0.div_lt_upper_bound.
      rewrite Nat2N.inj_succ, N.pow_succ_r' in Hn. lia. }
    exists (ds ++ [byte_of_N (n mod 256)]). split.
    + by rewrite Hds, <- app_assoc.
    + rewrite be_value_snoc, Hval, byte_of_N_to_N by (apply N.mod_lt; lia).
      pose proof (N.div_mod' n 256). lia.
Qed.

(** Reading back the bytes of a number gives its absolute value. *)
Lemma be_value_bigInt_Bytes (z : Z) : be_value (bigInt_Bytes z) = Z.abs_N z.
Proof.
  unfold bigInt_Bytes.
  destruct (be_digits_spec (N.to_nat (N.size (Z.abs_N z))) (Z.abs_N z) []) as (ds & Hds & Hval).
  { rewrite N2Nat.id. apply N.size_gt. }
  simpl. rewrite Hds, app_nil_r. done.
Qed.

(** Two heights have the same key only if they are equal. *)
Lemma bigInt_Bytes_inj (h1 h2 : Z) :
  0 <= h1 -> 0 <= h2 -> bigInt_Bytes h1 = bigInt_Bytes h2 -> h1 = h2.
Proof.
  intros H1 H2 Heq. apply (f_equal be_value) in Heq.
  rewrite !be_value_bigInt_Bytes in Heq. lia.
Qed.

(** Accept marks the block, whatever it returns. *)
Lemma Accept_status (vm : VM) (b : Block) :
  getCachedStatus (snd (Block_Accept vm b)) (id b) = Accepted.
Proof.
  assert (H0 : getCachedStatus (updateStatus vm (id b) Accepted) (id b) = Accepted).
  { unfold getCachedStatus, updateStatus. simpl. by rewrite lookup_insert_eq. }
  unfold Block_Accept.
  destruct (Database_Put _ _ _) as [[err|] d]; [done|].
  destruct (getAtomicTx _ _) as [tx|]; [|done].
  destruct (UnsignedTx_ tx) as [t|t|]; [| |done].
  - by destruct (UnsignedAtomicTx_Accept _ _).
  - by destruct (UnsignedAtomicTx_Accept _ _).
Qed.

(** When the database takes the write, the index holds the block's id under
    the bytes of its number, and the other keys are as before. *)
Lemma Accept_index (vm : VM) (b : Block) :
  db_fault (acceptedDB vm) = None ->
  db_data (acceptedDB (snd (Block_Accept vm b)))
  = <[bigInt_Bytes (Number (ethBlock b)) := id b]> (db_data (acceptedDB vm)).
Proof.
  intros Hok. unfold Block_Accept, Database_Put. simpl. rewrite Hok.
  destruct (getAtomicTx _ _) as [tx|]; [|done].
  destruct (UnsignedTx_ tx) as [t|t|]; [| |done].
  - by destruct (UnsignedImportTx_Accept _ _).
  - by destruct (UnsignedExportTx_Accept _ _).
Qed.

Lemma Accept_db_fault (vm : VM) (b : Block) (c : N) :
  db_fault (acceptedDB vm) = Some c ->
  Block_Accept vm b
  = (Some (errExternal c), updateStatus vm (id b) Accepted).
Proof.
  intros Hf. unfold Block_Accept, Database_Put. simpl. rewrite Hf.
  by destruct vm.
Qed.

(** C3, as the code has it: when Accept returns nil, the acceptance index
    maps the bytes of the block's number, [big.Int.Bytes]: big-endian without
    leading zero bytes (not a fixed width of 8), to the block's id; the
    entries of all other heights are untouched, so reading the index at that
    key of an accepted height yields the id. *)
Theorem Accept_writes_index (vm : VM) (b : Block) :
  fst (Block_Accept vm b) = None ->
  Database_Get (acceptedDB (snd (Block_Accept vm b))) (bigInt_Bytes (Number (ethBlock b)))
  = Some (Block_ID b)
  /\ (0 <= Number (ethBlock b) < 2 ^ 64 ->
      Database_Get (acceptedDB (snd (Block_Accept vm b))) (bigInt_Bytes (Block_Height b))
      = Some (Block_ID b))
  /\ (forall h,
        0 <= h -> 0 <= Number (ethBlock b) -> h ≠ Number (ethBlock b) ->
        Database_Get (acceptedDB (snd (Block_Accept vm b))) (bigInt_Bytes h)
        = Database_Get (acceptedDB vm) (bigInt_Bytes h)).
Proof.
  intros Hnil.
  assert (Hok : db_fault (acceptedDB vm) = None).
  { destruct (db_fault (acceptedDB vm)) as [c|] eqn:Hf; [|done].
    by rewrite (Accept_db_fault _ _ _ Hf) in Hnil. }
  unfold Database_Get. rewrite (Accept_index _ _ Hok).
  split; [|split].
  - apply lookup_insert_eq.
  - intros Hrange. unfold Block_Height, wrap64.
    rewrite Z.mod_small by done. apply lookup_insert_eq.
  - intros h Hh Hn Hne. apply lookup_insert_ne.
    intros Heq. apply bigInt_Bytes_inj in Heq; [congruence|done..].
Qed.

(** C10: Accept sets the cached status to Accepted first. When the write to
    the acceptance index fails, Accept returns that error, nothing else has
    changed, and the status cache reports Accepted; when the index is written
    and the Accept of the atomic transaction fails, Accept returns that
    error with the status Accepted and the index entry in place. Whenever
    Accept returns an error, the block reads as Accepted. *)
Theorem Accept_not_atomic_on_error (vm : VM) (b : Block) :
  (forall err,
      fst (Block_Accept vm b) = Some err ->
      getCachedStatus (snd (Block_Accept vm b)) (Block_ID b) = Accepted
      /\ Block_Status (snd (Block_Accept vm b)) b = Accepted)
  /\ (forall c,
        db_fault (acceptedDB vm) = Some c ->
        fst (Block_Accept vm b) = Some (errExternal c)
        /\ getCachedStatus (snd (Block_Accept vm b)) (Block_ID b) = Accepted
        /\ acceptedDB (snd (Block_Accept vm b)) = acceptedDB vm
        /\ sharedMemory (snd (Block_Accept vm b)) = sharedMemory vm)
  /\ (forall tx err,
        db_fault (acceptedDB vm) = None ->
        getAtomicTx vm (ethBlock b) = Some tx ->
        fst (UnsignedAtomicTx_Accept (UnsignedTx_ tx) (sharedMemory vm)) = Some err ->
        fst (Block_Accept vm b) = Some err
        /\ getCachedStatus (snd (Block_Accept vm b)) (Block_ID b) = Accepted
        /\ Database_Get (acceptedDB (snd (Block_Accept vm b)))
             (bigInt_Bytes (Number (ethBlock b))) = Some (Block_ID b)).
Proof.
  split; [|split].
  - intros err _. unfold Block_Status, Block_ID. by rewrite Accept_status.
  - intros c Hf. rewrite (Accept_db_fault _ _ _ Hf). simpl.
    split; [done|]. split; [|done].
    unfold getCachedStatus, updateStatus. simpl. by rewrite lookup_insert_eq.
  - intros tx err Hok Htx Hacc.
    split; [|split].
    + unfold Block_Accept, Database_Put. simpl. rewrite Hok.
      change (getAtomicTx _ (ethBlock b)) with (getAtomicTx vm (ethBlock b)). rewrite Htx.
      simpl in *.
      destruct (UnsignedTx_ tx) as [t|t|]; simpl in *.
      * by destruct (UnsignedImportTx_Accept _ _).
      * by destruct (UnsignedExportTx_Accept _ _).
      * done.
    + apply Accept_status.
    + unfold Database_Get. rewrite (Accept_index _ _ Hok). apply lookup_insert_eq.
Qed.

(** ** Verify: the walk over the ancestors *)

(** The walk reads the block map, the status cache, the genesis hash and the
    input cache; not the store of sets. *)
Lemma walkAncestry_ext fuel vm vm' p path inputs :
  blockMap vm = blockMap vm' ->
  blockStatusCache vm = blockStatusCache vm' ->
  genesisHash vm = genesisHash vm' ->
  blockAtomicInputCache vm = blockAtomicInputCache vm' ->
  walkAncestry fuel vm p path inputs = walkAncestry fuel vm' p path inputs.
Proof.
  intros Hb Hs Hg Hc. revert p path.
  induction fuel as [|fuel IH]; intros p path; simpl; [done|].
  unfold SnowmanBlock_Status, Block_Status, getCachedStatus, cache_Get, Block_Parent, getBlock.
  rewrite Hb, Hs, Hg, Hc.
  destruct (bool_decide _); [done|].
  destruct p as [pb|]; [|done].
  destruct (bool_decide _); [done|].
  destruct (_ !! SnowmanBlock_ID _); [done|].
  destruct (_ !! ParentHash _); [|done].
  apply IH.
Qed.

Lemma walkAncestry_newSet fuel vm p path inputs :
  walkAncestry fuel (snd (newSet vm)) p path inputs = walkAncestry fuel vm p path inputs.
Proof. by apply walkAncestry_ext. Qed.

(** A walk that meets an unknown parent panics, given fuel to reach it. *)
Lemma walkAncestry_missing vm p :
  walksToMissing vm p ->
  exists n, forall fuel path inputs,
      (n <= fuel)%nat -> walkAncestry fuel vm (IsBlock p) path inputs = Panicked.
Proof.
  induction 1 as [p Hs Hg Hc Hp | p pp Hs Hg Hc Hp _ [n IH]].
  - exists 1%nat. intros [|fuel] path inputs Hle; [lia|]. simpl.
    rewrite bool_decide_eq_false_2 by done.
    rewrite bool_decide_eq_false_2 by done.
    rewrite Hc. unfold Block_Parent. by rewrite Hp.
  - exists (S n). intros [|fuel] path inputs Hle; [lia|]. simpl.
    rewrite bool_decide_eq_false_2 by done.
    rewrite bool_decide_eq_false_2 by done.
    rewrite Hc. unfold Block_Parent. rewrite Hp. apply IH. lia.
Qed.

(** C9, as the code has it: the assertion that the parent is a Block is made
    only for a block that carries an atomic transaction and has passed the
    gas-price gate. Such a block panics in Verify when its parent is not in
    the block map; an import block whose parent is known panics when the walk
    of the conflict scan comes to a block whose parent is not in the block
    map. A block without an atomic transaction returns what the insertion
    into the chain returns, whether its parent is known or not. *)
Theorem Verify_panics_on_missing_ancestor (vm : VM) (b : Block) :
  IsBootstrapped (ctx vm) && gasPriceTooLow b = false ->
  (forall tx fuel,
      getAtomicTx vm (ethBlock b) = Some tx ->
      getBlock vm (ParentHash (ethBlock b)) = None ->
      fst (Block_Verify fuel vm b) = Panicked)
  /\ (forall tx atx parent pState,
        getAtomicTx vm (ethBlock b) = Some tx ->
        UnsignedTx_ tx = ImportTx atx ->
        Hash (ethBlock b) ≠ genesisHash vm ->
        getBlock vm (ParentHash (ethBlock b)) = Some parent ->
        chain_BlockState (ethBlock parent) = inr pState ->
        walksToMissing vm parent ->
        exists n, forall fuel, (n <= fuel)%nat -> fst (Block_Verify fuel vm b) = Panicked)
  /\ (forall fuel,
        getAtomicTx vm (ethBlock b) = None ->
        fst (Block_Verify fuel vm b) = Returned (errExternal <$> chain_InsertChain (ethBlock b))).
Proof.
  intros Hgate. split; [|split].
  - intros tx fuel Htx Hp. unfold Block_Verify, Block_Parent.
    by rewrite Hgate, Htx, Hp.
  - intros tx atx parent pState Htx Hatx Hgen Hp Hst Hwalk.
    destruct (walkAncestry_missing _ _ Hwalk) as [n Hn].
    exists n. intros fuel Hle.
    unfold Block_Verify, Block_Parent. rewrite Hgate, Htx, Hp, Hst, Hatx.
    rewrite bool_decide_eq_false_2 by done.
    unfold conflictScan, Block_Parent. rewrite Hp.
    destruct (newSet vm) as [inputs vm1] eqn:Hnew.
    replace vm1 with (snd (newSet vm)) by (by rewrite Hnew).
    rewrite walkAncestry_newSet, Hn by done. done.
  - intros fuel Htx. unfold Block_Verify. by rewrite Hgate, Htx.
Qed.

(** ** Verify: the conflict scan *)

Lemma ancestorPath_ext fuel vm vm' blkID :
  blockMap vm = blockMap vm' ->
  blockStatusCache vm = blockStatusCache vm' ->
  genesisHash vm = genesisHash vm' ->
  ancestorPath fuel vm blkID = ancestorPath fuel vm' blkID.
Proof.
  intros Hb Hs Hg. revert blkID.
  induction fuel as [|fuel IH]; intros blkID; simpl; [done|].
  unfold getBlock, Block_Status, getCachedStatus. rewrite Hb, Hs, Hg.
  destruct (_ !! blkID); [|done].
  destruct (decide _); [done|]. by rewrite IH.
Qed.

(** More fuel finds the same path. *)
Lemma ancestorPath_mono n m vm blkID path :
  ancestorPath n vm blkID = Some path -> (n <= m)%nat -> ancestorPath m vm blkID = Some path.
Proof.
  revert m blkID path. induction n as [|n IH]; intros m blkID path; simpl; [done|].
  intros H Hle. destruct m as [|m]; [lia|]. simpl.
  destruct (getBlock vm blkID) as [p|]; [|done].
  destruct (decide _); [done|].
  destruct (ancestorPath n vm _) as [rest|] eqn:Hrest; [|done].
  by rewrite (IH m _ rest Hrest) by lia.
Qed.

Lemma ancestorPath_known n vm blkID path :
  ancestorPath n vm blkID = Some path -> is_Some (getBlock vm blkID).
Proof. destruct n; simpl; [done|]. by destruct (getBlock vm blkID). Qed.

(** What the first loop returns on a path that ends at an Accepted block or
    at the genesis block. *)
Lemma walkAncestry_spec n vm blkID p path acc inputs :
  getBlock vm blkID = Some p ->
  ancestorPath n vm blkID = Some path ->
  walkAncestry n vm (IsBlock p) acc inputs
  = Returned (acc ++ fst (firstHit vm path), default inputs (snd (firstHit vm path))).
Proof.
  revert blkID p path acc. induction n as [|n IH]; intros blkID p path acc Hp; simpl; [done|].
  rewrite Hp. destruct (decide _) as [Hstop|Hgo].
  - intros [= <-]. simpl. rewrite app_nil_r.
    case_bool_decide; [done|]. destruct Hstop as [?|Hg]; [done|].
    by rewrite bool_decide_eq_true_2.
  - destruct (ancestorPath n vm _) as [rest|] eqn:Hrest; [|done].
    intros [= <-]. simpl.
    rewrite bool_decide_eq_false_2 by tauto.
    rewrite bool_decide_eq_false_2 by tauto.
    destruct (cache_Get vm (Block_ID p)) as [l|]; [by rewrite app_nil_r|].
    destruct (ancestorPath_known _ _ _ _ Hrest) as [pp Hpp].
    unfold Block_Parent. rewrite Hpp.
    rewrite (IH _ _ _ _ Hpp Hrest).
    destruct (firstHit vm rest) as [walked hit]. simpl. by rewrite <- app_assoc.
Qed.

(** The walked part is a prefix of the path; it stops at a resident entry or
    covers the path. *)
Lemma firstHit_spec vm path :
  fst (firstHit vm path) = take (length (fst (firstHit vm path))) path
  /\ match snd (firstHit vm path) with
     | Some l => exists p, path !! length (fst (firstHit vm path)) = Some p
                           /\ cache_Get vm (Block_ID p) = Some l
     | None => fst (firstHit vm path) = path
     end.
Proof.
  induction path as [|p rest [IH1 IH2]]; simpl; [done|].
  destruct (cache_Get vm (Block_ID p)) as [l|] eqn:Hc; simpl.
  { split; [done|]. by exists p. }
  destruct (firstHit vm rest) as [walked hit]. simpl in *.
  split; [by f_equal|].
  destruct hit; [done|]. by f_equal.
Qed.

(** The store of sets. *)
Lemma deref_Set_Union_eq vm p s :
  (p < length (setStore vm))%nat -> deref (Set_Union vm p s) p = deref vm p ∪ s.
Proof. intros H. unfold deref at 1, Set_Union. simpl. by rewrite list_lookup_insert_eq. Qed.

Lemma deref_Set_Union_ne vm p q s :
  p ≠ q -> deref (Set_Union vm p s) q = deref vm q.
Proof. intros H. unfold deref, Set_Union. simpl. by rewrite list_lookup_insert_ne. Qed.

Lemma deref_newSet vm q :
  (q < length (setStore vm))%nat -> deref (snd (newSet vm)) q = deref vm q.
Proof. intros H. unfold deref, newSet. simpl. by rewrite lookup_app_l. Qed.

Lemma deref_newSet_fresh vm : deref (snd (newSet vm)) (fst (newSet vm)) = ∅.
Proof.
  unfold deref, newSet. simpl.
  by rewrite lookup_app_r, Nat.sub_diag.
Qed.

(** The second loop adds the inputs of the blocks it visits to the set that
    [inputs] points to. *)
Lemma memoizePath_spec vm0 blocks :
  Forall (atomicTxKnown vm0) blocks ->
  forall vm inputs,
    (inputs < length (setStore vm))%nat ->
    exists vm',
      memoizePath vm inputs blocks = (Returned tt, vm')
      /\ deref vm' inputs = deref vm inputs ∪ ⋃ (blockInputs vm0 <$> blocks).
Proof.
  induction 1 as [|p rest Hp _ IH]; intros vm inputs Hlt.
  { exists vm. split; [done|]. simpl. set_solver. }
  simpl. unfold atomicTxKnown in Hp.
  assert (Hbi : blockInputs vm0 p
                = match getAtomicTx vm0 (ethBlock p) with
                  | Some tx => default ∅ (InputUTXOs (UnsignedTx_ tx))
                  | None => ∅
                  end) by done.
  change (getAtomicTx (set_setStore vm (setStore vm ++ [∅])) (ethBlock p))
    with (getAtomicTx vm0 (ethBlock p)).
  set (vm1 := set_setStore vm (setStore vm ++ [∅])).
  assert (Hlen1 : length (setStore vm1) = S (length (setStore vm))).
  { simpl. rewrite length_app. simpl. lia. }
  assert (Hd1 : deref vm1 inputs = deref vm inputs) by (by apply deref_newSet).
  destruct (getAtomicTx vm0 (ethBlock p)) as [atx|] eqn:Hatx.
  - destruct (Hp atx eq_refl) as [utxos Hu]. rewrite Hu in *. simpl in Hbi.
    set (vm2 := Set_Union vm1 inputs utxos).
    set (vm3 := Set_Union vm2 (length (setStore vm)) (deref vm2 inputs)).
    destruct (IH (cache_Put vm3 (Block_ID p) (length (setStore vm))) inputs)
      as (vm' & Hrun & Hd).
    { simpl. rewrite !length_insert, length_app. simpl. lia. }
    exists vm'. split; [done|]. rewrite Hd, Hbi.
    change (deref (cache_Put vm3 (Block_ID p) (length (setStore vm))) inputs)
      with (deref vm3 inputs).
    unfold vm3. rewrite deref_Set_Union_ne by lia.
    unfold vm2. rewrite deref_Set_Union_eq by lia. rewrite Hd1. set_solver.
  - destruct (IH (cache_Put vm1 (Block_ID p) (length (setStore vm))) inputs)
      as (vm' & Hrun & Hd).
    { simpl. rewrite length_app. simpl. lia. }
    exists vm'. split; [done|]. rewrite Hd, Hbi.
    change (deref (cache_Put vm1 (Block_ID p) (length (setStore vm))) inputs)
      with (deref vm1 inputs).
    rewrite Hd1. set_solver.
Qed.

Lemma conflicts_spec vm inputs utxos :
  conflicts vm inputs utxos = true <-> exists i, i ∈ utxos /\ i ∈ deref vm inputs.
Proof.
  unfold conflicts. rewrite existsb_exists. split.
  - intros (i & Hin & Hb). exists i. split.
    + apply elem_of_elements. by apply list_elem_of_In.
    + by apply bool_decide_eq_true_1 in Hb.
  - intros (i & Hu & Hd). exists i. split.
    + apply list_elem_of_In. by apply elem_of_elements.
    + by apply bool_decide_eq_true_2.
Qed.

Lemma rev_reverse {A : Type} (l : list A) : rev l = reverse l.
Proof. unfold reverse. apply rev_alt. Qed.

Lemma ancestorInputs_app vm l1 l2 :
  ancestorInputs vm (l1 ++ l2) = ancestorInputs vm l1 ∪ ancestorInputs vm l2.
Proof. unfold ancestorInputs. rewrite fmap_app. apply union_list_app_L. Qed.

Lemma ancestorInputs_rev vm l : ancestorInputs vm (rev l) = ancestorInputs vm l.
Proof.
  unfold ancestorInputs. rewrite rev_reverse, fmap_reverse. apply union_list_reverse_L.
Qed.

(** The scan on a path with a sound cache: the set [inputs] points to in the
    end is the ancestor-input set of the path. *)
Lemma conflictScan_spec n fuel vm b atx parent path :
  getBlock vm (ParentHash (ethBlock b)) = Some parent ->
  ancestorPath n vm (ParentHash (ethBlock b)) = Some path ->
  (n <= fuel)%nat ->
  Forall (atomicTxKnown vm) path ->
  cacheSoundOn vm path ->
  exists vm',
    conflictScan fuel vm b atx
    = (Returned (if bool_decide (exists i, i ∈ UnsignedImportTx_InputUTXOs atx
                                           /\ i ∈ ancestorInputs vm path)
                 then Some errAtomicInputConflict else None), vm').
Proof.
  intros Hp Hpath Hle Hknown Hsound.
  unfold conflictScan, Block_Parent. rewrite Hp.
  destruct (newSet vm) as [l0 vm1] eqn:Hnew.
  assert (Hvm1 : vm1 = snd (newSet vm)) by (by rewrite Hnew).
  assert (Hl0 : l0 = length (setStore vm)) by (by injection Hnew).
  rewrite Hvm1, walkAncestry_newSet.
  rewrite (walkAncestry_spec fuel vm _ parent path [] l0 Hp
             (ancestorPath_mono _ _ _ _ _ Hpath Hle)).
  simpl. destruct (firstHit_spec vm path) as [Hpre Hhit].
  set (walked := fst (firstHit vm path)) in *.
  set (inputs := default l0 (snd (firstHit vm path))).
  assert (Hin : (inputs < length (setStore (snd (newSet vm))))%nat
                /\ deref (snd (newSet vm)) inputs
                   = ancestorInputs vm (drop (length walked) path)).
  { unfold inputs. destruct (snd (firstHit vm path)) as [l|]; simpl.
    - destruct Hhit as (p & Hk & Hc).
      pose proof (Hsound _ _ _ Hk Hc) as Hl.
      apply lookup_lt_Some in Hl as Hlt.
      rewrite length_app. split; [lia|].
      unfold deref. simpl. by rewrite lookup_app_l, Hl.
    - rewrite length_app. simpl. split; [lia|].
      rewrite Hhit, drop_all. subst l0. apply (deref_newSet_fresh vm). }
  destruct Hin as [Hlt Hd].
  destruct (memoizePath_spec vm (rev walked)) with (vm := snd (newSet vm)) (inputs := inputs)
    as (vm' & Hrun & Hd'); [|done|].
  { rewrite rev_reverse. apply Forall_reverse. rewrite Hpre. by apply Forall_take. }
  change (snd (newSet vm)) with (set_setStore vm (setStore vm ++ [∅])) in *.
  rewrite Hrun. exists vm'.
  assert (Hall : deref vm' inputs = ancestorInputs vm path).
  { assert (Hsplit : ancestorInputs vm path
                     = ancestorInputs vm walked
                       ∪ ancestorInputs vm (drop (length walked) path)).
    { rewrite <- ancestorInputs_app. f_equal.
      rewrite Hpre at 1. by rewrite take_drop. }
    rewrite Hd', Hd, Hsplit.
    change (⋃ (blockInputs vm <$> rev walked)) with (ancestorInputs vm (rev walked)).
    rewrite ancestorInputs_rev. set_solver. }
  destruct (conflicts vm' inputs (UnsignedImportTx_InputUTXOs atx)) eqn:Hc.
  - apply conflicts_spec in Hc. rewrite Hall in Hc. by rewrite bool_decide_eq_true_2.
  - rewrite bool_decide_eq_false_2; [done|].
    intros Hex. rewrite <- Hall in Hex. apply conflicts_spec in Hex. congruence.
Qed.

(** What follows the switch never returns errAtomicInputConflict. *)
Lemma verifyAtomicTx_not_conflict vm b tx pState :
  verifyAtomicTx vm b tx pState ≠ Returned (Some errAtomicInputConflict).
Proof.
  unfold verifyAtomicTx.
  destruct (match UnsignedTx_ tx with ImportTx _ => _ | _ => _ end) as [[e|]| |]; try done.
  destruct (Processor_Process _ _); [done|].
  by destruct (chain_InsertChain _).
Qed.

(** C1, as the code has it: take a block that carries an import transaction,
    is not the genesis block, passes the gas-price gate, and whose parent is
    known with its state; let the ancestors back to the most recent Accepted
    one (or genesis) be known, each with an import or export transaction or
    none, and let every resident entry of the input cache for them hold the
    cumulative set of its block. Then Verify returns errAtomicInputConflict
    if and only if an input UTXO of the transaction is among the inputs of
    the blocks from the parent back to, and without, that ancestor. *)
Theorem Verify_conflict_iff (n fuel : nat) (vm : VM) (b : Block) (tx : Tx)
    (atx : UnsignedImportTx) (parent : Block) (pState : StateDB) (path : list Block) :
  getAtomicTx vm (ethBlock b) = Some tx ->
  UnsignedTx_ tx = ImportTx atx ->
  Hash (ethBlock b) ≠ genesisHash vm ->
  IsBootstrapped (ctx vm) && gasPriceTooLow b = false ->
  getBlock vm (ParentHash (ethBlock b)) = Some parent ->
  chain_BlockState (ethBlock parent) = inr pState ->
  ancestorPath n vm (ParentHash (ethBlock b)) = Some path ->
  (n <= fuel)%nat ->
  Forall (atomicTxKnown vm) path ->
  cacheSoundOn vm path ->
  fst (Block_Verify fuel vm b) = Returned (Some errAtomicInputConflict)
  <-> exists i, i ∈ UnsignedImportTx_InputUTXOs atx /\ i ∈ ancestorInputs vm path.
Proof.
  intros Htx Hatx Hgen Hgate Hp Hst Hpath Hle Hknown Hsound.
  destruct (conflictScan_spec n fuel vm b atx parent path Hp Hpath Hle Hknown Hsound)
    as [vm' Hscan].
  unfold Block_Verify, Block_Parent. rewrite Hgate, Htx, Hp, Hst, Hatx.
  rewrite bool_decide_eq_false_2 by done. rewrite Hscan.
  case_bool_decide as Hc; simpl.
  - done.
  - split; [|done]. intros H. by apply verifyAtomicTx_not_conflict in H.
Qed.

End Proofs.

(** * The properties on the concrete chain *)

(** ** Conflict scan *)

Lemma sample_known vm : Forall (atomicTxKnown vm) [blkP2; blkP1].
Proof.
  repeat constructor; intros tx Htx; vm_compute in Htx; [done|].
  injection Htx as <-. by eexists.
Qed.

Lemma sample_conflict vm :
  exists i, i ∈ UnsignedImportTx_InputUTXOs
                  (importBody (mkID 7))
            /\ i ∈ ancestorInputs vm [blkP2; blkP1].
Proof.
  exists (mkID 7 ++ [x00]). split.
  - vm_compute. set_solver.
  - unfold ancestorInputs. apply elem_of_union_list.
    exists (blockInputs vm blkP1). split; [set_solver|].
    vm_compute. set_solver.
Qed.

(** C1 on the chain G <- P1 <- P2 <- B with a resident, sound cache entry for
    P1: B imports the UTXO that P1 imports, and Verify reports the conflict. *)
Lemma Verify_conflict_iff_witness :
  fst (Block_Verify 3 sampleVMcached blkB) = Returned (Some errAtomicInputConflict)
  <-> exists i, i ∈ UnsignedImportTx_InputUTXOs
                      (importBody (mkID 7))
                /\ i ∈ ancestorInputs sampleVMcached [blkP2; blkP1].
Proof.
  apply (Verify_conflict_iff 3 3 sampleVMcached blkB (importOf (mkID 7)) (importBody (mkID 7)) blkP2
           {| balance := ∅; balanceMultiCoin := ∅; nonce := ∅ |} [blkP2; blkP1]).
  - reflexivity.
  - reflexivity.
  - vm_compute. discriminate.
  - reflexivity.
  - vm_compute. reflexivity.
  - reflexivity.
  - vm_compute. reflexivity.
  - lia.
  - apply sample_known.
  - intros k p l Hk Hc.
    destruct k as [|[|k]]; simpl in Hk; [| |done]; injection Hk as <-.
    + vm_compute in Hc. discriminate.
    + vm_compute in Hc. injection Hc as <-. vm_compute. reflexivity.
Defined.

(** C1 fails as stated: the block [blkCheap] imports the UTXO its ancestor P1
    imports, but it holds an EVM transaction below the minimum gas price, and
    after bootstrapping Verify returns errInsufficientGasPrice before any
    scan. *)
Lemma Verify_conflict_counterexample :
  getAtomicTx (sampleVM true) (ethBlock blkCheap) = Some (importOf (mkID 7))
  /\ Hash (ethBlock blkCheap) ≠ genesisHash (sampleVM true)
  /\ ancestorPath 3 (sampleVM true) (ParentHash (ethBlock blkCheap)) = Some [blkP2; blkP1]
  /\ (exists i, i ∈ UnsignedImportTx_InputUTXOs
                      (importBody (mkID 7))
                /\ i ∈ ancestorInputs (sampleVM true) [blkP2; blkP1])
  /\ fst (Block_Verify 3 (sampleVM true) blkCheap) = Returned (Some errInsufficientGasPrice)
  /\ fst (Block_Verify 3 (sampleVM true) blkCheap) ≠ Returned (Some errAtomicInputConflict).
Proof.
  split; [reflexivity|]. split; [vm_compute; discriminate|].
  split; [vm_compute; reflexivity|]. split; [apply sample_conflict|].
  split; [vm_compute; reflexivity|]. vm_compute. discriminate.
Qed.

(** C2 fails on the code. On G <- P1 <- P2 <- B, with P1 and B importing the
    same UTXO and P2 carrying no atomic transaction, the first Verify of B
    finds the conflict and memoizes for P2 the empty set, where the
    cumulative set of P2 holds the UTXO of P1. The second Verify of the same
    block meets that entry and returns nil: the verdict depends on the
    cache. *)
Theorem Verify_memoizes_empty_set :
  fst (Block_Verify 3 (sampleVM false) blkB) = Returned (Some errAtomicInputConflict)
  /\ (exists l,
         cache_Get (snd (Block_Verify 3 (sampleVM false) blkB)) (Block_ID blkP2) = Some l
         /\ deref (snd (Block_Verify 3 (sampleVM false) blkB)) l = ∅)
  /\ ancestorInputs (sampleVM false) [blkP2; blkP1] = {[ mkID 7 ++ [x00] ]}
  /\ fst (Block_Verify 3 (snd (Block_Verify 3 (sampleVM false) blkB)) blkB) = Returned None.
Proof.
  split; [vm_compute; reflexivity|].
  split; [exists 2%nat; split; vm_compute; reflexivity|].
  split; [vm_compute; reflexivity|].
  vm_compute. reflexivity.
Qed.

(** The second defect of the cache: on a hit, [inputs] points to the cached
    set itself, and the second loop adds to it. On G <- P1 <- Q <- C, the
    Verify of C adds the input of Q to the set cached for P1; afterwards Q2,
    a sibling of Q with the same import, is refused, though no ancestor of Q2
    consumes that UTXO and its Verify returned nil before. *)
Lemma Verify_cache_hit_is_aliased :
  let vm1 := snd (Block_Verify 3 (sampleVM false) blkQ) in
  let vm2 := snd (Block_Verify 3 vm1 blkC) in
  (exists l, cache_Get vm1 (Block_ID blkP1) = Some l
             /\ cache_Get vm2 (Block_ID blkP1) = Some l
             /\ deref vm1 l = {[ mkID 7 ++ [x00] ]}
             /\ deref vm2 l = {[ mkID 7 ++ [x00] ]} ∪ {[ mkID 8 ++ [x00] ]})
  /\ fst (Block_Verify 3 vm1 blkQ2) = Returned None
  /\ fst (Block_Verify 3 vm2 blkQ2) = Returned (Some errAtomicInputConflict).
Proof.
  split; [exists 1%nat; repeat split; vm_compute; reflexivity|].
  split; vm_compute; reflexivity.
Qed.

(** ** Missing parents *)

(** C9 on the chain: the import block whose parent is unknown panics, and so
    does its child, whose walk comes to it. *)
Lemma Verify_panics_witness :
  fst (Block_Verify 1 (sampleVM true) blkOrphanImport) = Panicked
  /\ exists n, forall fuel,
       (n <= fuel)%nat -> fst (Block_Verify fuel (sampleVM true) blkOrphanChild) = Panicked.
Proof.
  split.
  - apply (proj1 (Verify_panics_on_missing_ancestor (sampleVM true) blkOrphanImport
                    eq_refl) (importOf (mkID 7)) 1%nat); reflexivity.
  - apply (proj1 (proj2 (Verify_panics_on_missing_ancestor (sampleVM true) blkOrphanChild
                           eq_refl))
             (importOf (mkID 8)) (importBody (mkID 8)) blkOrphanImport
             {| balance := ∅; balanceMultiCoin := ∅; nonce := ∅ |});
      try reflexivity.
    + vm_compute. discriminate.
    + apply walks_here; vm_compute; (discriminate || reflexivity).
Defined.

(** C9 fails as stated: the parent of [blkOrphan] is not in the block map,
    and Verify returns nil, since the block carries no atomic transaction. *)
Lemma Verify_missing_parent_counterexample :
  Block_Parent (sampleVM true) blkOrphan = MissingBlock (mkID 200)
  /\ fst (Block_Verify 3 (sampleVM true) blkOrphan) = Returned None.
Proof. split; vm_compute; reflexivity. Qed.

(** ** Accept *)

(** C3 on the chain: after the Accept of P1, of height 1, the index holds
    its id under the one byte 01. *)
Lemma Accept_writes_index_witness :
  Database_Get (acceptedDB (snd (Block_Accept (sampleVM false) blkP1))) [x01]
  = Some (Block_ID blkP1).
Proof.
  apply (proj1 (Accept_writes_index (sampleVM false) blkP1 eq_refl)).
Defined.

(** C3 fails as stated: Accept of P1 returns nil, and the index has no entry
    under the height as 8 big-endian bytes. *)
Lemma Accept_index_counterexample :
  fst (Block_Accept (sampleVM false) blkP1) = None
  /\ uint64_be8 (Block_Height blkP1) = [x00; x00; x00; x00; x00; x00; x00; x01]
  /\ Database_Get (acceptedDB (snd (Block_Accept (sampleVM false) blkP1)))
       (uint64_be8 (Block_Height blkP1)) = None.
Proof. repeat split; vm_compute; reflexivity. Qed.

(** C10 on the chain: with a database that fails, Accept of P1 returns the
    error and P1 reads as Accepted. *)
Lemma Accept_not_atomic_witness :
  fst (Block_Accept sampleVMfaulty blkP1) = Some (errExternal 5)
  /\ getCachedStatus (snd (Block_Accept sampleVMfaulty blkP1)) (Block_ID blkP1) = Accepted
  /\ acceptedDB (snd (Block_Accept sampleVMfaulty blkP1)) = acceptedDB sampleVMfaulty
  /\ sharedMemory (snd (Block_Accept sampleVMfaulty blkP1)) = sharedMemory sampleVMfaulty.
Proof.
  apply (proj1 (proj2 (Accept_not_atomic_on_error sampleVMfaulty blkP1)) 5%N). reflexivity.
Defined.

(** ** The export transaction *)

(** C4 on an account with nonce 3 and 10 units: an input of 4 units with
    nonce 3 passes and leaves the nonce 4. *)
Lemma EVMStateTransfer_per_input_witness :
  exists state',
    transferInput (sampleVM false) sampleState (mkInput 1 4 10 3) = (None, state')
    /\ GetNonce state' (mkAddr 1) = wrap64 (3 + 1)
    /\ (3 < MaxUint64 -> 0 <= 3 -> GetNonce state' (mkAddr 1) = 3 + 1)
    /\ balance state' = balance (debit (sampleVM false) sampleState (mkInput 1 4 10 3))
    /\ balanceMultiCoin state'
       = balanceMultiCoin (debit (sampleVM false) sampleState (mkInput 1 4 10 3)).
Proof.
  destruct (EVMStateTransfer_per_input (sampleVM false)) as (_ & _ & H & _).
  destruct (H sampleState (mkInput 1 4 10 3)) as (_ & _ & _ & _ & Hok).
  - vm_compute. discriminate.
  - apply Hok. vm_compute. reflexivity.
Defined.

(** C5 on a transaction signed by another address than its first input's. *)
Lemma SemanticVerify_signature_witness :
  fst (UnsignedExportTx_SemanticVerify (Some exportTwoInputs) (sampleVM false) signedByOther)
  = Returned (Some (permError errPublicKeySignatureMismatch)).
Proof.
  apply (proj1 (proj2 (SemanticVerify_signature_binding exportTwoInputs (sampleVM false)
                         signedByOther))
           0%nat (mkAddr 9) [] (mkAddr 9) (mkInput 1 6 10 0));
    try reflexivity.
  vm_compute. discriminate.
Defined.

(** C8 on a transaction with two inputs and one credential, of the first
    input: the second input is debited with no signature of its address, and
    SemanticVerify returns nil. *)
Lemma SemanticVerify_fewer_credentials_witness :
  length (Creds signedByFirst) = 1%nat
  /\ length (Ins exportTwoInputs) = 2%nat
  /\ fst (UnsignedExportTx_SemanticVerify (Some exportTwoInputs) (sampleVM false)
            signedByFirst) = Returned None.
Proof.
  split; [reflexivity|]. split; [reflexivity|].
  apply (proj1 (proj2 (SemanticVerify_indexes_by_credential exportTwoInputs (sampleVM false)
                         signedByFirst))).
  - reflexivity.
  - intros [|i] cred Hc; [|done]. injection Hc as <-.
    split; [reflexivity|].
    exists (mkAddr 1), [], (mkAddr 1), (mkInput 1 6 10 0). repeat split.
  - reflexivity.
Defined.

(** C8, more credentials than inputs: the third credential indexes the two
    inputs out of range. *)
Lemma SemanticVerify_more_credentials_panics :
  fst (UnsignedExportTx_SemanticVerify (Some exportTwoInputs) (sampleVM false) signedThrice)
  = Panicked.
Proof. vm_compute. reflexivity. Qed.

(** C6 on a sorted and on an unsorted list of outputs. *)
Lemma Verify_outputs_checks_witness :
  UnsignedExportTx_Verify (Some exportSorted) (mkID 2) (sampleCtx false) 1 (mkID 10)
  = (None, Some (set_syntacticallyVerified exportSorted)).
Proof.
  apply (proj1 (proj2 (Verify_outputs_checks exportSorted (mkID 2) (sampleCtx false) 1
                         (mkID 10) eq_refl eq_refl ltac:(vm_compute; discriminate))));
    try reflexivity.
  vm_compute. discriminate.
Defined.

(** C6 fails as stated: a transaction with no exported output whose
    destination is the zero id returns errWrongChainID, and one with
    unsorted outputs on another network returns errWrongNetworkID. *)
Lemma Verify_outputs_counterexample :
  ExportedOutputs exportNoOutputs = []
  /\ fst (UnsignedExportTx_Verify (Some exportNoOutputs) (mkID 2) (sampleCtx false) 1 (mkID 10))
     = Some errWrongChainID
  /\ IsSortedTransferableOutputs (ExportedOutputs exportUnsorted) = false
  /\ fst (UnsignedExportTx_Verify (Some exportUnsorted) (mkID 2) (sampleCtx false) 1 (mkID 10))
     = Some errWrongNetworkID.
Proof. repeat split; vm_compute; reflexivity. Qed.

(** C7 on the largest amount: the product leaves the range of uint64, the
    transfer returns nil and debits the product in full. *)
Lemma export_debit_witness :
  balanceOf (sampleVM false)
    (snd (transferInput (sampleVM false) richState (mkInput 1 MaxUint64 10 0)))
    (mkInput 1 MaxUint64 10 0)
  = balanceOf (sampleVM false) richState (mkInput 1 MaxUint64 10 0)
    - Amount (mkInput 1 MaxUint64 10 0) * x2cRate.
Proof.
  apply (proj1 (export_debit_exact_and_overflow (sampleVM false))).
  vm_compute. reflexivity.
Defined.

(** C7 fails as stated: the amount times x2cRate exceeds the range of
    uint64, and neither EVMStateTransfer nor newExportTx fails. *)
Lemma export_overflow_counterexample :
  Amount (mkInput 1 MaxUint64 10 0) * x2cRate > MaxUint64
  /\ fst (UnsignedExportTx_EVMStateTransfer
            (mkExport 1 (mkID 2) [mkInput 1 MaxUint64 10 0] [mkOutput 10 MaxUint64])
            (sampleVM false) richState) = None
  /\ (2 ^ 63) * x2cRate > MaxUint64
  /\ snd (newExportTx (sampleVM false) (mkID 10) (2 ^ 63) (mkID 2) (mkAddr 50) [mkAddr 1])
     = None.
Proof. repeat split; vm_compute; reflexivity. Qed.

(** * Further properties of the code *)

Section MoreProofs.
Context `{Ext : Externals}.

#[local] Arguments UnsignedExportTx_Verify : simpl never.

(** ** The syntactic check *)

Lemma firstError_None {A : Type} (f : A -> option N) (l : list A) :
  firstError f l = None <-> forall x, x ∈ l -> f x = None.
Proof.
  induction l as [|x l IH]; simpl.
  - split; [intros _ x Hx; by apply elem_of_nil in Hx|done].
  - destruct (f x) eqn:Hfx.
    + split; [done|]. intros H. rewrite (H x) in Hfx; [done|]. by left.
    + rewrite IH. split.
      * intros H y [->|Hy]%elem_of_cons; auto.
      * intros H y Hy. apply H. by right.
Qed.

(** Verify marks the transaction when it passes and never otherwise; a
    marked transaction passes every later Verify unchecked, whatever the
    chain id, context and fee given. *)
Theorem Verify_marks_and_caches (t : UnsignedExportTx) (avmID : ID) (c : Context)
    (feeAmount : Z) (feeAssetID : ID) :
  (forall err,
      fst (UnsignedExportTx_Verify (Some t) avmID c feeAmount feeAssetID) = Some err ->
      snd (UnsignedExportTx_Verify (Some t) avmID c feeAmount feeAssetID) = Some t)
  /\ (fst (UnsignedExportTx_Verify (Some t) avmID c feeAmount feeAssetID) = None ->
      exists t',
        snd (UnsignedExportTx_Verify (Some t) avmID c feeAmount feeAssetID) = Some t'
        /\ syntacticallyVerified t' = true
        /\ Ins t' = Ins t
        /\ ExportedOutputs t' = ExportedOutputs t
        /\ DestinationChain t' = DestinationChain t
        /\ forall avmID' c' feeAmount' feeAssetID',
             UnsignedExportTx_Verify (Some t') avmID' c' feeAmount' feeAssetID'
             = (None, Some t')).
Proof.
  unfold UnsignedExportTx_Verify.
  destruct (syntacticallyVerified t) eqn:Hflag; simpl.
  { split; [done|]. intros _. exists t. repeat split; try done.
    intros. by rewrite Hflag. }
  split.
  - intros err.
    repeat (match goal with
            | |- context [if ?b then _ else _] => destruct b
            | |- context [match ?o with Some _ => _ | None => _ end] => destruct o
            end; simpl); done.
  - repeat (match goal with
            | |- context [if ?b then _ else _] => destruct b
            | |- context [match ?o with Some _ => _ | None => _ end] => destruct o
            end; simpl); try done.
    intros _. exists (set_syntacticallyVerified t). repeat split; done.
Qed.

(** Verify returns nil exactly for a marked transaction, or for one whose
    destination is the given non-zero chain, with at least one exported
    output, the network and blockchain ids of the context, inputs and outputs
    that verify, and sorted outputs. The fee amount and asset play no role. *)
Theorem Verify_nil_iff (t : UnsignedExportTx) (avmID : ID) (c : Context)
    (feeAmount : Z) (feeAssetID : ID) :
  fst (UnsignedExportTx_Verify (Some t) avmID c feeAmount feeAssetID) = None
  <-> syntacticallyVerified t = true
      \/ (DestinationChain t ≠ zeroID
          /\ DestinationChain t = avmID
          /\ ExportedOutputs t ≠ []
          /\ NetworkID t = ctx_NetworkID c
          /\ ctx_ChainID c = BlockchainID t
          /\ (forall i, i ∈ Ins t -> EVMInput_Verify i = None)
          /\ (forall o, o ∈ ExportedOutputs t -> TransferableOutput_Verify o = None)
          /\ IsSortedTransferableOutputs (ExportedOutputs t) = true).
Proof.
  unfold UnsignedExportTx_Verify, IsZero, Equals.
  destruct (syntacticallyVerified t); simpl; [by split; [left|]|].
  rewrite <- !firstError_None.
  repeat case_bool_decide; simpl;
    try (split; [done|intros [?|(?&?&?&?&?&?&?&?)]; congruence]).
  - split; [done|]. intros [?|(?&?&Hne&?)]; [done|].
    by destruct (ExportedOutputs t).
  - destruct (firstError EVMInput_Verify (Ins t)); simpl;
      [split; [done|intros [?|(?&?&?&?&?&?&?&?)]; congruence]|].
    destruct (firstError TransferableOutput_Verify (ExportedOutputs t)); simpl;
      [split; [done|intros [?|(?&?&?&?&?&?&?&?)]; congruence]|].
    destruct (IsSortedTransferableOutputs (ExportedOutputs t)) eqn:Hs; simpl.
    + split; [|done]. intros _. right. repeat split; try done.
      intros Hnil. by rewrite Hnil in *.
    + split; [done|]. intros [?|(?&?&?&?&?&?&?&?)]; congruence.
Qed.

(** ** SemanticVerify *)

Lemma Verify_ok_flag tx avmID c fee feeAsset t' :
  UnsignedExportTx_Verify tx avmID c fee feeAsset = (None, Some t') ->
  syntacticallyVerified t' = true.
Proof.
  unfold UnsignedExportTx_Verify. destruct tx as [t|]; [|done].
  destruct (syntacticallyVerified t) eqn:Hflag; simpl.
  { intros [= <-]. done. }
  repeat (match goal with
          | |- context [if ?b then _ else _] => destruct b
          | |- context [match ?o with Some _ => _ | None => _ end] => destruct o
          end; simpl); try done.
  by intros [= <-].
Qed.

(** SemanticVerify of an export transaction has no temporary failure: every
    error it returns is a permError. When it returns nil the transaction is
    marked as verified and the flow check has passed. *)
Theorem SemanticVerify_errors_are_permanent (tx : option UnsignedExportTx) (vm : VM)
    (stx : Tx) :
  (forall e,
      fst (UnsignedExportTx_SemanticVerify tx vm stx) = Returned (Some e) ->
      exists err, e = permError err)
  /\ (fst (UnsignedExportTx_SemanticVerify tx vm stx) = Returned None ->
      exists t',
        snd (UnsignedExportTx_SemanticVerify tx vm stx) = Some t'
        /\ syntacticallyVerified t' = true
        /\ FlowChecker_Verify (flowOps vm t') = None).
Proof.
  unfold UnsignedExportTx_SemanticVerify.
  destruct (UnsignedExportTx_Verify tx _ _ _ _) as [[err|] [t'|]] eqn:HV; simpl.
  - split; [|done]. intros e [= <-]. eauto.
  - split; [|done]. intros e [= <-]. eauto.
  - pose proof (Verify_ok_flag _ _ _ _ _ _ HV) as Hflag.
    assert (Hloop : forall r, verifyCreds (meta_unsignedBytes t') (Ins t') 0 (Creds stx) = r ->
                    match r with
                    | Returned (Some e) => exists err, e = permError err
                    | _ => True
                    end).
    { intros r <-. generalize 0%nat. induction (Creds stx) as [|cred rest IH]; intros k; simpl.
      { done. }
      destruct (Verifiable_Verify cred); [eauto|].
      destruct cred as [[|sig sigs]|]; [done| |done].
      destruct (RecoverPublicKey _ sig); [eauto|].
      destruct (Ins t' !! k); [|done].
      case_bool_decide; [eauto|]. apply IH. }
    specialize (Hloop _ eq_refl).
    destruct (verifyCreds _ _ _ _) as [[e|]| |]; simpl.
    + split; [|done]. by intros e' [= <-].
    + destruct (FlowChecker_Verify _) eqn:Hflow; simpl.
      * split; [|done]. intros e [= <-]. eauto.
      * split; [done|]. intros _. by exists t'.
    + done.
    + done.
  - done.
Qed.

(** ** EVMStateTransfer *)

Lemma transferInput_frame vm state from :
  forall a,
    a ≠ Address_ from ->
    balance (snd (transferInput vm state from)) !! a = balance state !! a
    /\ nonce (snd (transferInput vm state from)) !! a = nonce state !! a
    /\ forall coin, balanceMultiCoin (snd (transferInput vm state from)) !! (a, coin)
                    = balanceMultiCoin state !! (a, coin).
Proof.
  intros a Ha. unfold transferInput.
  repeat case_bool_decide; simpl;
    repeat split; intros; rewrite ?lookup_insert_ne by congruence; done.
Qed.

(** The accounts that no input names keep their balances and nonce,
    whether the transfer passes or stops at an error. *)
Theorem EVMStateTransfer_frame (tx : UnsignedExportTx) (vm : VM) (state : StateDB)
    (a : Address) :
  a ∉ Address_ <$> Ins tx ->
  GetBalance (snd (UnsignedExportTx_EVMStateTransfer tx vm state)) a = GetBalance state a
  /\ GetNonce (snd (UnsignedExportTx_EVMStateTransfer tx vm state)) a = GetNonce state a
  /\ forall coin,
       GetBalanceMultiCoin (snd (UnsignedExportTx_EVMStateTransfer tx vm state)) a coin
       = GetBalanceMultiCoin state a coin.
Proof.
  unfold UnsignedExportTx_EVMStateTransfer, GetBalance, GetNonce, GetBalanceMultiCoin.
  revert state. induction (Ins tx) as [|from rest IH]; intros state Ha; simpl; [done|].
  rewrite fmap_cons, not_elem_of_cons in Ha. destruct Ha as [Hne Hrest].
  destruct (transferInput_frame vm state from a Hne) as (Hb & Hn & Hm).
  destruct (transferInput vm state from) as [[err|] state'] eqn:Hstep; simpl in *.
  - rewrite Hb, Hn. split; [done|]. split; [done|]. intros coin. by rewrite Hm.
  - destruct (IH state' Hrest) as (Hb' & Hn' & Hm').
    rewrite Hb', Hn', Hb, Hn. split; [done|]. split; [done|].
    intros coin. by rewrite Hm', Hm.
Qed.

Lemma transferInput_nonneg vm state from :
  (forall a, 0 <= GetBalance state a) ->
  (forall a coin, 0 <= GetBalanceMultiCoin state a coin) ->
  (forall a, 0 <= GetBalance (snd (transferInput vm state from)) a)
  /\ (forall a coin, 0 <= GetBalanceMultiCoin (snd (transferInput vm state from)) a coin).
Proof.
  intros Hb Hm.
  assert (HB : forall x a', x <= GetBalance state (Address_ from) ->
                            0 <= GetBalance (SubBalance state (Address_ from) x) a').
  { intros x a' Hx. destruct (decide (Address_ from = a')) as [<-|Hne].
    - rewrite GetBalance_SubBalance. lia.
    - rewrite GetBalance_SubBalance_ne by done. apply Hb. }
  assert (HM : forall x a' coin,
             x <= GetBalanceMultiCoin state (Address_ from) (AssetID from) ->
             0 <= GetBalanceMultiCoin
                    (SubBalanceMultiCoin state (Address_ from) (AssetID from) x) a' coin).
  { intros x a' coin Hx.
    destruct (decide ((Address_ from, AssetID from) = (a', coin))) as [[= <- <-]|Hne].
    - rewrite GetBalanceMultiCoin_Sub. lia.
    - rewrite GetBalanceMultiCoin_Sub_ne by done. apply Hm. }
  unfold transferInput.
  case_bool_decide as Hasset; case_bool_decide as Hshort; simpl; try done;
    case_bool_decide as Hnonce; simpl; split; intros;
    first [ apply HB; lia | apply HM; lia | apply Hb | apply Hm ].
Qed.

(** No balance is overdrawn: when all base and multi-coin balances are
    non-negative before the transfer, they are after it, at whatever input
    it stops. *)
Theorem EVMStateTransfer_no_overdraft (tx : UnsignedExportTx) (vm : VM) (state : StateDB) :
  (forall a, 0 <= GetBalance state a) ->
  (forall a coin, 0 <= GetBalanceMultiCoin state a coin) ->
  (forall a, 0 <= GetBalance (snd (UnsignedExportTx_EVMStateTransfer tx vm state)) a)
  /\ (forall a coin,
         0 <= GetBalanceMultiCoin (snd (UnsignedExportTx_EVMStateTransfer tx vm state)) a coin).
Proof.
  unfold UnsignedExportTx_EVMStateTransfer.
  revert state. induction (Ins tx) as [|from rest IH]; intros state Hb Hm; simpl; [done|].
  destruct (transferInput_nonneg vm state from Hb Hm) as [Hb' Hm'].
  destruct (transferInput vm state from) as [[err|] state'] eqn:Hstep; simpl in *; [done|].
  by apply IH.
Qed.

(** Two inputs in a row on the same address pass only with consecutive
    nonces: the second must carry the nonce the first has left. *)
Theorem EVMStateTransfer_consecutive_nonces (tx : UnsignedExportTx) (vm : VM)
    (state : StateDB) (l1 l2 : list EVMInput) (a b : EVMInput) :
  Ins tx = l1 ++ a :: b :: l2 ->
  Address_ a = Address_ b ->
  fst (UnsignedExportTx_EVMStateTransfer tx vm state) = None ->
  Nonce b = wrap64 (Nonce a + 1)
  /\ (0 <= Nonce a < 2 ^ 64 -> Nonce b ≠ Nonce a).
Proof.
  intros Hins Haddr Hok. unfold UnsignedExportTx_EVMStateTransfer in Hok.
  rewrite Hins in Hok.
  destruct (transferInputs vm state (l1 ++ a :: b :: l2)) as [[err|] st'] eqn:Hrun; [done|].
  apply transferInputs_prefix in Hrun as (s1 & _ & Hrun). simpl in Hrun.
  destruct (transferInput vm s1 a) as [[err|] s2] eqn:Ha; [done|].
  destruct (transferInput vm s2 b) as [[err|] s3] eqn:Hb; [done|].
  destruct (transferInput_inv _ _ _ _ Ha) as [Hfa Hna].
  rewrite transferInput_ok in Ha by done. injection Ha as <-.
  destruct (transferInput_inv _ _ _ _ Hb) as [_ Hnb].
  rewrite <- Haddr, GetNonce_SetNonce in Hnb.
  split; [done|]. intros Hrange. rewrite <- Hnb. unfold wrap64.
  intros Heq.
  destruct (decide (Nonce a + 1 < 2 ^ 64)).
  - rewrite Z.mod_small in Heq by lia. lia.
  - assert (Nonce a + 1 = 2 ^ 64) as Hmax by lia.
    rewrite Hmax, Z.mod_same in Heq by lia. lia.
Qed.

(** ** Accept of an export transaction *)

(** The elements built for the outputs, from index [i] on. *)
Lemma exportElems_inr txID i outs elems :
  exportElems txID i outs = inr elems ->
  Key <$> elems = (fun j : nat => InputID txID (Z.of_nat j mod 2 ^ 32)) <$> seq i (length outs)
  /\ forall (j : nat) out,
       outs !! j = Some out ->
       exists utxoBytes,
         Codec_Marshal {| utxo_TxID := txID; utxo_OutputIndex := Z.of_nat (i + j) mod 2 ^ 32;
                          utxo_Asset := out_Asset out; utxo_Out := Out out |} = inr utxoBytes
         /\ elems !! j = Some {| Key := InputID txID (Z.of_nat (i + j) mod 2 ^ 32);
                                 Value := utxoBytes; Traits := Addrs (Out out) |}.
Proof.
  revert i elems. induction outs as [|o rest IH]; intros i elems; simpl.
  { intros [= <-]. split; [done|]. intros j out Hj. by destruct j. }
  destruct (Codec_Marshal _) as [e|bs] eqn:Hm; [done|].
  destruct (exportElems txID (S i) rest) as [e|elems'] eqn:Hrest; [done|].
  intros [= <-]. destruct (IH _ _ Hrest) as [Hkeys Hall].
  split; [rewrite fmap_cons, Hkeys; done|].
  intros [|j] out Hj; simplify_eq/=.
  - rewrite Nat.add_0_r. eauto.
  - replace (i + S j)%nat with (S i + j)%nat by lia. by apply Hall.
Qed.


(** A batch put leaves the other chains and the other keys as they were. *)
Lemma put_lookup_other (chain : bytes) (elems : list Element)
    (d : gmap (bytes * bytes) Element) (chain' k : bytes) :
  chain' ≠ chain \/ k ∉ Key <$> elems ->
  foldl (fun d e => <[(chain, Key e) := e]> d) d elems !! (chain', k) = d !! (chain', k).
Proof.
  revert d. induction elems as [|e rest IH]; intros d Hk; simpl; [done|].
  rewrite IH.
  - apply lookup_insert_ne. intros Heq. injection Heq as Hc Hke.
    destruct Hk as [Hk|Hk]; [congruence|].
    apply Hk. rewrite fmap_cons, <- Hke. by left.
  - destruct Hk as [?|Hk]; [by left|right].
    rewrite fmap_cons in Hk. by apply not_elem_of_cons in Hk as [_ ?].
Qed.

(** With distinct keys, every element of the batch is found under its key. *)
Lemma put_lookup (chain : bytes) (elems : list Element)
    (d : gmap (bytes * bytes) Element) (j : nat) (e : Element) :
  NoDup (Key <$> elems) ->
  elems !! j = Some e ->
  foldl (fun d e => <[(chain, Key e) := e]> d) d elems !! (chain, Key e) = Some e.
Proof.
  revert d j. induction elems as [|x rest IH]; intros d j Hnd Hj; [done|].
  rewrite fmap_cons in Hnd. apply NoDup_cons in Hnd as [Hx Hnd]. simpl.
  destruct j as [|j]; simplify_eq/=.
  - rewrite put_lookup_other by (by right). apply lookup_insert_eq.
  - by eapply IH.
Qed.


(** After an Accept that returns nil, with distinct keys, the shared memory
    of the destination chain holds for every exported output [j] the
    marshalled UTXO (txID, j) under its input id, with the owners' addresses
    as traits; the other keys and the other chains are as before. *)
Theorem ExportTx_Accept_stores_outputs (tx : UnsignedExportTx) (m : SharedMemory) :
  fst (UnsignedExportTx_Accept tx m) = None ->
  NoDup (exportedKey tx <$> seq 0 (length (ExportedOutputs tx))) ->
  (forall (j : nat) out,
      ExportedOutputs tx !! j = Some out ->
      exists utxoBytes,
        Codec_Marshal (exportedUTXO tx j out) = inr utxoBytes
        /\ sm_data (snd (UnsignedExportTx_Accept tx m)) !! (DestinationChain tx, exportedKey tx j)
           = Some {| Key := exportedKey tx j; Value := utxoBytes; Traits := Addrs (Out out) |})
  /\ (forall chain k,
         chain ≠ DestinationChain tx
         \/ k ∉ exportedKey tx <$> seq 0 (length (ExportedOutputs tx)) ->
         sm_data (snd (UnsignedExportTx_Accept tx m)) !! (chain, k) = sm_data m !! (chain, k)).
Proof.
  unfold UnsignedExportTx_Accept, SharedMemory_Put, exportedUTXO, exportedKey.
  destruct (exportElems (meta_id tx) 0 (ExportedOutputs tx)) as [e|elems] eqn:Hel; [done|].
  apply exportElems_inr in Hel as [Hkeys Hall].
  destruct (sm_fault m) as [c|] eqn:Hf; [done|]. simpl. intros _ Hnd.
  rewrite <- Hkeys in Hnd. split.
  - intros j out Hj. destruct (Hall j out Hj) as (bs & Hbs & He). simpl in *.
    exists bs. split; [done|].
    by apply (put_lookup (DestinationChain tx) elems (sm_data m) j _ Hnd He).
  - intros chain k Hk. rewrite <- Hkeys in Hk. by apply put_lookup_other.
Qed.

(** ** Accept and Reject *)

Lemma Accept_db_ok (vm : VM) (b : Block) :
  db_fault (acceptedDB vm) = None ->
  db_fault (acceptedDB (snd (Block_Accept vm b))) = None.
Proof.
  intros Hok. unfold Block_Accept, Database_Put. simpl. rewrite Hok.
  destruct (getAtomicTx _ _) as [tx|]; [|done].
  destruct (UnsignedTx_ tx) as [t|t|]; [| |done].
  - by destruct (UnsignedImportTx_Accept _ _).
  - by destruct (UnsignedExportTx_Accept _ _).
Qed.

Lemma Accept_status_cache (vm : VM) (b : Block) :
  blockStatusCache (snd (Block_Accept vm b)) = <[id b := Accepted]> (blockStatusCache vm).
Proof.
  unfold Block_Accept.
  destruct (Database_Put _ _ _) as [[err|] d]; [done|].
  destruct (getAtomicTx _ _) as [tx|]; [|done].
  destruct (UnsignedTx_ tx) as [t|t|]; [| |done].
  - by destruct (UnsignedAtomicTx_Accept _ _).
  - by destruct (UnsignedAtomicTx_Accept _ _).
Qed.

(** Accepting two blocks one after the other, with a database that takes the
    writes: both read as Accepted; at different heights the index holds both
    ids, at the same height the second id replaces the first. This holds
    whatever the two calls return. *)
Theorem Accept_twice (vm : VM) (b1 b2 : Block) :
  db_fault (acceptedDB vm) = None ->
  Database_Get (acceptedDB (snd (Block_Accept (snd (Block_Accept vm b1)) b2)))
    (bigInt_Bytes (Number (ethBlock b2))) = Some (Block_ID b2)
  /\ (0 <= Number (ethBlock b1) -> 0 <= Number (ethBlock b2) ->
      Number (ethBlock b1) ≠ Number (ethBlock b2) ->
      Database_Get (acceptedDB (snd (Block_Accept (snd (Block_Accept vm b1)) b2)))
        (bigInt_Bytes (Number (ethBlock b1))) = Some (Block_ID b1))
  /\ (Number (ethBlock b1) = Number (ethBlock b2) ->
      Database_Get (acceptedDB (snd (Block_Accept (snd (Block_Accept vm b1)) b2)))
        (bigInt_Bytes (Number (ethBlock b1))) = Some (Block_ID b2))
  /\ Block_Status (snd (Block_Accept (snd (Block_Accept vm b1)) b2)) b1 = Accepted
  /\ Block_Status (snd (Block_Accept (snd (Block_Accept vm b1)) b2)) b2 = Accepted.
Proof.
  intros Hok. pose proof (Accept_db_ok vm b1 Hok) as Hok1.
  unfold Database_Get, Block_Status, Block_ID, getCachedStatus.
  rewrite (Accept_index _ b2 Hok1), (Accept_index _ b1 Hok), !Accept_status_cache.
  split; [apply lookup_insert_eq|]. split; [|split; [|split]].
  - intros H1 H2 Hne. rewrite lookup_insert_ne; [apply lookup_insert_eq|].
    intros Heq. apply bigInt_Bytes_inj in Heq; [congruence|done..].
  - intros ->. apply lookup_insert_eq.
  - destruct (decide (id b2 = id b1)) as [->|Hne].
    + by rewrite lookup_insert_eq.
    + by rewrite lookup_insert_ne, lookup_insert_eq.
  - by rewrite lookup_insert_eq.
Qed.

(** Reject always returns nil, also when the re-issue fails; the block then
    reads as Rejected, whatever it read before, and the transaction handed to
    the re-issue is the block's atomic transaction. The acceptance index and
    the shared memory are not touched: a block rejected after its Accept
    reads as Rejected while the index still holds its id; a block accepted
    after its Reject reads as Accepted. *)
Theorem Reject_lifecycle (issueTx : Tx -> option N) (vm : VM) (b : Block) :
  fst (fst (Block_Reject issueTx vm b)) = None
  /\ Block_Status (snd (fst (Block_Reject issueTx vm b))) b = Rejected
  /\ snd (Block_Reject issueTx vm b) = getAtomicTx vm (ethBlock b)
  /\ acceptedDB (snd (fst (Block_Reject issueTx vm b))) = acceptedDB vm
  /\ sharedMemory (snd (fst (Block_Reject issueTx vm b))) = sharedMemory vm
  /\ Block_Status (snd (fst (Block_Reject issueTx (snd (Block_Accept vm b)) b))) b = Rejected
  /\ (db_fault (acceptedDB vm) = None ->
      Database_Get (acceptedDB (snd (fst (Block_Reject issueTx (snd (Block_Accept vm b)) b))))
        (bigInt_Bytes (Number (ethBlock b))) = Some (Block_ID b))
  /\ Block_Status (snd (Block_Accept (snd (fst (Block_Reject issueTx vm b))) b)) b = Accepted.
Proof.
  assert (Hrej : forall vm0,
             fst (fst (Block_Reject issueTx vm0 b)) = None
             /\ blockStatusCache (snd (fst (Block_Reject issueTx vm0 b)))
                = <[id b := Rejected]> (blockStatusCache vm0)
             /\ snd (Block_Reject issueTx vm0 b) = getAtomicTx vm0 (ethBlock b)
             /\ acceptedDB (snd (fst (Block_Reject issueTx vm0 b))) = acceptedDB vm0
             /\ sharedMemory (snd (fst (Block_Reject issueTx vm0 b))) = sharedMemory vm0).
  { intros vm0. unfold Block_Reject.
    change (getAtomicTx (updateStatus vm0 (Block_ID b) Rejected) (ethBlock b))
      with (getAtomicTx vm0 (ethBlock b)).
    destruct (getAtomicTx vm0 (ethBlock b)) as [tx|]; [|done].
    by destruct (issueTx tx). }
  destruct (Hrej vm) as (H1 & H2 & H3 & H4 & H5).
  destruct (Hrej (snd (Block_Accept vm b))) as (_ & H2' & _ & H4' & _).
  unfold Block_Status, getCachedStatus, Block_ID, Database_Get.
  repeat split; try done.
  - by rewrite H2, lookup_insert_eq.
  - by rewrite H2', lookup_insert_eq.
  - intros Hok. rewrite H4', (Accept_index _ _ Hok). apply lookup_insert_eq.
  - by rewrite Accept_status_cache, lookup_insert_eq.
Qed.

(** ** Parent *)

(** Parent never fails. In a block map that stores every block under its
    id, the value it returns has the parent hash as id: the block stored
    under that hash, or the sentinel, which reads as Unknown. *)
Theorem Parent_has_parent_hash (vm : VM) (b : Block) :
  keyedByID vm ->
  SnowmanBlock_ID (Block_Parent vm b) = ParentHash (ethBlock b)
  /\ (getBlock vm (ParentHash (ethBlock b)) = None ->
      Block_Parent vm b = MissingBlock (ParentHash (ethBlock b))
      /\ SnowmanBlock_Status vm (Block_Parent vm b) = Unknown)
  /\ (forall p, Block_Parent vm b = IsBlock p ->
                getBlock vm (Block_ID p) = Some p
                /\ SnowmanBlock_Status vm (Block_Parent vm b) ≠ Unknown).
Proof.
  intros Hkeyed. unfold Block_Parent, getBlock.
  destruct (blockMap vm !! ParentHash (ethBlock b)) as [p|] eqn:Hp; simpl.
  - pose proof (Hkeyed _ _ Hp) as Hid. split; [done|]. split; [done|].
    intros p' [= <-]. unfold Block_ID. rewrite Hid. split; [done|].
    unfold Block_Status. by destruct (getCachedStatus vm (Block_ID p)).
  - split; [done|]. split; [done|]. done.
Qed.

(** ** Verify *)

Lemma gasPriceTooLow_spec (b : Block) :
  gasPriceTooLow b = true
  <-> exists tx, tx ∈ Transactions (ethBlock b) /\ GasPrice tx < MinGasPrice.
Proof.
  unfold gasPriceTooLow. rewrite existsb_exists. split.
  - intros (tx & Hin & Hlt). exists tx. split; [by apply list_elem_of_In|].
    by apply bool_decide_eq_true_1 in Hlt.
  - intros (tx & Hin & Hlt). exists tx. split; [by apply list_elem_of_In|].
    by apply bool_decide_eq_true_2.
Qed.

(** What the second loop returns. *)
Lemma memoizePath_outcome vm inputs blocks :
  fst (memoizePath vm inputs blocks) = Returned tt
  \/ fst (memoizePath vm inputs blocks) = Panicked.
Proof.
  revert vm. induction blocks as [|p rest IH]; intros vm; simpl; [by left|].
  destruct (getAtomicTx _ _) as [atx|]; [|apply IH].
  destruct (InputUTXOs _); [apply IH|by right].
Qed.

(** What the scan returns: a conflict on an input of the transaction, no
    conflict, a panic, or no answer within the fuel. *)
Lemma conflictScan_outcome fuel vm b atx :
  (fst (conflictScan fuel vm b atx) = Returned (Some errAtomicInputConflict)
   /\ exists i, i ∈ UnsignedImportTx_InputUTXOs atx)
  \/ fst (conflictScan fuel vm b atx) = Returned None
  \/ fst (conflictScan fuel vm b atx) = Panicked
  \/ fst (conflictScan fuel vm b atx) = OutOfFuel.
Proof.
  unfold conflictScan.
  destruct (newSet vm) as [l0 vm1].
  destruct (walkAncestry fuel vm1 _ _ _) as [[path inputs]| |]; simpl; auto.
  destruct (memoizePath vm1 inputs (rev path)) as [[[]| |] vm2] eqn:Hm; simpl; auto.
  destruct (conflicts vm2 inputs _) eqn:Hc; simpl; auto.
  left. split; [done|]. apply conflicts_spec in Hc as (i & Hi & _). eauto.
Qed.

Lemma verifyAtomicTx_outcome vm b tx pState :
  verifyAtomicTx vm b tx pState = Returned None
  \/ verifyAtomicTx vm b tx pState = Panicked
  \/ verifyAtomicTx vm b tx pState = OutOfFuel
  \/ (exists msg e, verifyAtomicTx vm b tx pState = Returned (Some (errWrapped msg e)))
  \/ (exists c, verifyAtomicTx vm b tx pState = Returned (Some (errExternal c))).
Proof.
  unfold verifyAtomicTx.
  destruct (match UnsignedTx_ tx with ImportTx _ => _ | _ => _ end) as [[e|]| |].
  - do 3 right. left. eauto.
  - destruct (Processor_Process _ _).
    + do 3 right. left. eauto.
    + destruct (chain_InsertChain _); simpl.
      * do 4 right. eauto.
      * by left.
  - right. by left.
  - do 2 right. by left.
Qed.

(** Verify returns errAtomicInputConflict only for a block that has passed
    the gas-price gate, is not the genesis block, and carries an import
    transaction with at least one input UTXO: never for an export block or a
    block without an atomic transaction. *)
Theorem Verify_conflict_only_for_imports (fuel : nat) (vm : VM) (b : Block) :
  fst (Block_Verify fuel vm b) = Returned (Some errAtomicInputConflict) ->
  IsBootstrapped (ctx vm) && gasPriceTooLow b = false
  /\ Hash (ethBlock b) ≠ genesisHash vm
  /\ is_Some (getBlock vm (ParentHash (ethBlock b)))
  /\ exists tx atx i,
       getAtomicTx vm (ethBlock b) = Some tx
       /\ UnsignedTx_ tx = ImportTx atx
       /\ i ∈ UnsignedImportTx_InputUTXOs atx.
Proof.
  unfold Block_Verify, Block_Parent.
  destruct (IsBootstrapped (ctx vm) && gasPriceTooLow b); [done|].
  destruct (getAtomicTx vm (ethBlock b)) as [tx|]; simpl.
  2: { by destruct (chain_InsertChain _). }
  destruct (getBlock vm (ParentHash (ethBlock b))) as [parent|]; [|done].
  destruct (chain_BlockState _) as [e|pState]; [done|].
  destruct (UnsignedTx_ tx) as [atx|etx|] eqn:Hu; [| |done].
  - case_bool_decide as Hg; [done|].
    pose proof (conflictScan_outcome fuel vm b atx) as Hout.
    destruct (conflictScan fuel vm b atx) as [[[e|]| |] vm'] eqn:Hscan; simpl in *.
    + intros [= ->]. destruct Hout as [[_ [i Hi]]|[?|[?|?]]]; try done.
      repeat split; eauto 10.
    + intros H. by apply verifyAtomicTx_not_conflict in H.
    + done.
    + done.
  - simpl. intros H. by apply verifyAtomicTx_not_conflict in H.
Qed.

(** Verify returns errInsufficientGasPrice exactly when the VM is
    bootstrapped and some EVM transaction of the block pays less than the
    minimum gas price; the VM is then left as it was. Before bootstrapping no
    gas price is refused. *)
Theorem Verify_gas_gate (fuel : nat) (vm : VM) (b : Block) :
  (fst (Block_Verify fuel vm b) = Returned (Some errInsufficientGasPrice)
   <-> IsBootstrapped (ctx vm) = true
       /\ exists tx, tx ∈ Transactions (ethBlock b) /\ GasPrice tx < MinGasPrice)
  /\ (fst (Block_Verify fuel vm b) = Returned (Some errInsufficientGasPrice) ->
      snd (Block_Verify fuel vm b) = vm).
Proof.
  rewrite <- gasPriceTooLow_spec, <- andb_true_iff.
  unfold Block_Verify, Block_Parent.
  destruct (IsBootstrapped (ctx vm) && gasPriceTooLow b); [done|].
  assert (Hgoal : forall r : Outcome (option Error) * VM,
             fst r ≠ Returned (Some errInsufficientGasPrice) ->
             (fst r = Returned (Some errInsufficientGasPrice) <-> false = true)
             /\ (fst r = Returned (Some errInsufficientGasPrice) -> snd r = vm)).
  { intros r Hr. split; [split; [done|done]|done]. }
  apply Hgoal.
  destruct (getAtomicTx vm (ethBlock b)) as [tx|]; simpl.
  2: { by destruct (chain_InsertChain _). }
  destruct (getBlock vm (ParentHash (ethBlock b))) as [parent|]; [|done].
  destruct (chain_BlockState _) as [e|pState]; [done|].
  assert (Htail : forall vm', verifyAtomicTx vm' b tx pState
                              ≠ Returned (Some errInsufficientGasPrice)).
  { intros vm'.
    destruct (verifyAtomicTx_outcome vm' b tx pState)
      as [->|[->|[->|[(msg & e & ->)|(c & ->)]]]]; done. }
  destruct (UnsignedTx_ tx) as [atx|etx|] eqn:Hu; [| |done].
  - case_bool_decide as Hg; [done|].
    pose proof (conflictScan_outcome fuel vm b atx) as Hout.
    destruct (conflictScan fuel vm b atx) as [[[e|]| |] vm'] eqn:Hscan; simpl in *;
      [|apply Htail|done|done].
    destruct Hout as [[[= ->] _]|[?|[?|?]]]; done.
  - apply Htail.
Qed.

(** The fields of the VM outside the input cache. *)
Lemma sameLedger_refl vm : sameLedger vm vm.
Proof. by repeat split. Qed.

Lemma sameLedger_trans vm1 vm2 vm3 :
  sameLedger vm1 vm2 -> sameLedger vm2 vm3 -> sameLedger vm1 vm3.
Proof.
  intros (?&?&?&?&?&?&?) (?&?&?&?&?&?&?). repeat split; congruence.
Qed.

Lemma memoizePath_ledger vm inputs blocks :
  sameLedger vm (snd (memoizePath vm inputs blocks))
  /\ (length (setStore vm) <= length (setStore (snd (memoizePath vm inputs blocks))))%nat.
Proof.
  revert vm. induction blocks as [|p rest IH]; intros vm; simpl.
  { split; [apply sameLedger_refl|done]. }
  destruct (getAtomicTx _ _) as [atx|].
  - destruct (InputUTXOs _) as [utxos|]; simpl.
    + match goal with |- context [memoizePath ?v inputs rest] =>
        destruct (IH v) as [Hl Hlen] end.
      split.
      * eapply sameLedger_trans; [|exact Hl]. by repeat split.
      * etrans; [|exact Hlen]. simpl. rewrite !length_insert, length_app. lia.
    + split; [by repeat split|]. rewrite length_app. lia.
  - match goal with |- context [memoizePath ?v inputs rest] =>
      destruct (IH v) as [Hl Hlen] end.
    split.
    + eapply sameLedger_trans; [|exact Hl]. by repeat split.
    + etrans; [|exact Hlen]. simpl. rewrite length_app. lia.
Qed.

Lemma conflictScan_ledger fuel vm b atx :
  sameLedger vm (snd (conflictScan fuel vm b atx))
  /\ (length (setStore vm) <= length (setStore (snd (conflictScan fuel vm b atx))))%nat.
Proof.
  unfold conflictScan. simpl.
  set (vm1 := set_setStore vm (setStore vm ++ [∅])).
  assert (H1 : sameLedger vm vm1) by (by repeat split).
  assert (Hlen1 : (length (setStore vm) <= length (setStore vm1))%nat).
  { simpl. rewrite length_app. lia. }
  destruct (walkAncestry fuel vm1 _ _ _) as [[path inputs]| |]; simpl; try done.
  destruct (memoizePath_ledger vm1 inputs (rev path)) as [H2 Hlen2].
  destruct (memoizePath vm1 inputs (rev path)) as [[[]| |] vm2]; simpl in *.
  - destruct (conflicts vm2 inputs _); simpl;
      (split; [by eapply sameLedger_trans|lia]).
  - split; [by eapply sameLedger_trans|lia].
  - split; [by eapply sameLedger_trans|lia].
Qed.


(** ** What the scan memoizes *)

Lemma firstHit_miss vm path :
  (forall p, p ∈ path -> cache_Get vm (Block_ID p) = None) ->
  firstHit vm path = (path, None).
Proof.
  induction path as [|p rest IH]; intros Hmiss; simpl; [done|].
  rewrite (Hmiss p) by (by left).
  rewrite IH; [done|]. intros q Hq. apply Hmiss. by right.
Qed.

Lemma ancestorInputs_cons vm p l :
  ancestorInputs vm (p :: l) = blockInputs vm p ∪ ancestorInputs vm l.
Proof. done. Qed.

(** The entries the second loop leaves: for every block it visits, a set of
    its own that holds the inputs gathered up to and with that block, or the
    empty set when the block carries no atomic transaction. The sets and
    entries it does not name stay as they were. *)
Lemma memoizePath_entries vm0 blocks :
  Forall (atomicTxKnown vm0) blocks ->
  NoDup (Block_ID <$> blocks) ->
  forall vm inputs,
    (inputs < length (setStore vm))%nat ->
    exists vm',
      memoizePath vm inputs blocks = (Returned tt, vm')
      /\ (forall pre q post,
             blocks = pre ++ q :: post ->
             exists l,
               cache_Get vm' (Block_ID q) = Some l
               /\ setStore vm' !! l
                  = Some (if decide (carriesAtomicTx vm0 q)
                          then deref vm inputs ∪ ancestorInputs vm0 (pre ++ [q])
                          else ∅))
      /\ (forall l, l ≠ inputs -> (l < length (setStore vm))%nat ->
                    setStore vm' !! l = setStore vm !! l)
      /\ (forall k, k ∉ Block_ID <$> blocks -> cache_Get vm' k = cache_Get vm k).
Proof.
  induction blocks as [|p rest IH]; intros Hknown Hnd vm inputs Hlt.
  { exists vm. split; [done|]. split; [|done].
    intros pre q post Heq. by destruct pre. }
  apply Forall_cons in Hknown as [Hp Hknown].
  rewrite fmap_cons in Hnd. apply NoDup_cons in Hnd as [Hfresh Hnd].
  specialize (IH Hknown Hnd).
  simpl. unfold atomicTxKnown in Hp.
  assert (Hbi : blockInputs vm0 p
                = match getAtomicTx vm0 (ethBlock p) with
                  | Some tx => default ∅ (InputUTXOs (UnsignedTx_ tx))
                  | None => ∅
                  end) by done.
  change (getAtomicTx (set_setStore vm (setStore vm ++ [∅])) (ethBlock p))
    with (getAtomicTx vm0 (ethBlock p)).
  set (lp := length (setStore vm)).
  set (vm1 := set_setStore vm (setStore vm ++ [∅])).
  assert (Hd1 : deref vm1 inputs = deref vm inputs) by (by apply deref_newSet).
  assert (Hfresh1 : deref vm1 lp = ∅) by apply (deref_newSet_fresh vm).
  (* the state [vm4] after the iteration, the set [s] memoized for [p] *)
  assert (Hstep : exists vm4 s,
             match getAtomicTx vm0 (ethBlock p) with
             | Some atx =>
                 match InputUTXOs (UnsignedTx_ atx) with
                 | Some utxos =>
                     memoizePath
                       (cache_Put
                          (Set_Union (Set_Union vm1 inputs utxos) lp
                             (deref (Set_Union vm1 inputs utxos) inputs))
                          (Block_ID p) lp) inputs rest
                 | None => (Panicked, vm1)
                 end
             | None => memoizePath (cache_Put vm1 (Block_ID p) lp) inputs rest
             end = memoizePath vm4 inputs rest
             /\ s = (if decide (carriesAtomicTx vm0 p)
                     then deref vm inputs ∪ blockInputs vm0 p else ∅)
             /\ setStore vm4 !! lp = Some s
             /\ deref vm4 inputs = deref vm inputs ∪ blockInputs vm0 p
             /\ length (setStore vm4) = S lp
             /\ cache_Get vm4 (Block_ID p) = Some lp
             /\ (forall l, l ≠ inputs -> (l < lp)%nat -> setStore vm4 !! l = setStore vm !! l)
             /\ (forall k, k ≠ Block_ID p -> cache_Get vm4 k = cache_Get vm k)).
  { unfold carriesAtomicTx.
    destruct (getAtomicTx vm0 (ethBlock p)) as [atx|] eqn:Hatx.
    - destruct (Hp atx eq_refl) as [utxos Hu]. rewrite Hu in *. simpl in Hbi.
      rewrite decide_True by (by eexists).
      eexists _, _. split; [reflexivity|]. split; [reflexivity|].
      assert (Hd2 : deref (Set_Union vm1 inputs utxos) inputs = deref vm inputs ∪ utxos).
      { rewrite deref_Set_Union_eq, Hd1; [done|]. simpl. rewrite length_app. simpl. lia. }
      assert (Hd2' : deref (Set_Union vm1 inputs utxos) lp = ∅).
      { rewrite deref_Set_Union_ne by (unfold lp; lia). done. }
      repeat split.
      + simpl. rewrite list_lookup_insert_eq.
        * f_equal. fold (deref (Set_Union vm1 inputs utxos) lp).
          rewrite Hd2', Hd2, Hbi. set_solver.
        * rewrite length_insert, length_app. simpl. unfold lp. lia.
      + change (deref (cache_Put ?v _ _) inputs) with (deref v inputs).
        rewrite deref_Set_Union_ne by (unfold lp; lia). by rewrite Hd2, Hbi.
      + simpl. rewrite !length_insert, length_app. simpl. unfold lp. lia.
      + unfold cache_Get, cache_Put. simpl. apply lookup_insert_eq.
      + intros l Hne Hl. simpl.
        rewrite !list_lookup_insert_ne by (unfold lp in *; lia).
        by apply lookup_app_l.
      + intros k Hk. unfold cache_Get, cache_Put. simpl. by apply lookup_insert_ne.
    - rewrite decide_False by (by intros [? ?]).
      eexists _, _. split; [reflexivity|]. split; [reflexivity|].
      repeat split.
      + simpl. by apply list_lookup_middle.
      + change (deref (cache_Put ?v _ _) inputs) with (deref v inputs).
        rewrite Hd1, Hbi. set_solver.
      + simpl. rewrite length_app. simpl. unfold lp. lia.
      + unfold cache_Get, cache_Put. simpl. apply lookup_insert_eq.
      + intros l Hne Hl. simpl. by apply lookup_app_l.
      + intros k Hk. unfold cache_Get, cache_Put. simpl. by apply lookup_insert_ne. }
  destruct Hstep as (vm4 & s & -> & Hs & Hlp & Hd4 & Hlen4 & Hc4 & Hst4 & Hca4).
  destruct (IH vm4 inputs) as (vm' & Hrun & Hent & Hst & Hca).
  { rewrite Hlen4. unfold lp. lia. }
  exists vm'. split; [done|]. split; [|split].
  - intros pre q post Heq. destruct pre as [|p' pre]; simplify_eq/=.
    + exists lp. split.
      * rewrite Hca by done. done.
      * rewrite Hst by (rewrite ?Hlen4; unfold lp; lia). rewrite Hlp. f_equal.
        rewrite ancestorInputs_cons. case_decide; [|done].
        unfold ancestorInputs. simpl. set_solver.
    + destruct (Hent pre q post eq_refl) as (l & Hl & Hset).
      exists l. split; [done|]. rewrite Hset. f_equal.
      case_decide; [|done]. rewrite Hd4, ancestorInputs_cons. set_solver.
  - intros l Hne Hl. rewrite Hst by (rewrite ?Hlen4; lia). by apply Hst4.
  - intros k Hk. rewrite ?fmap_cons in Hk. apply not_elem_of_cons in Hk as [Hk1 Hk2].
    rewrite Hca by done. by apply Hca4.
Qed.

(** For an import block that reaches the scan, the VM after Verify is the VM
    after the scan. *)
Lemma Verify_state_is_scan_state fuel vm b tx atx parent pState :
  getAtomicTx vm (ethBlock b) = Some tx ->
  UnsignedTx_ tx = ImportTx atx ->
  Hash (ethBlock b) ≠ genesisHash vm ->
  IsBootstrapped (ctx vm) && gasPriceTooLow b = false ->
  getBlock vm (ParentHash (ethBlock b)) = Some parent ->
  chain_BlockState (ethBlock parent) = inr pState ->
  snd (Block_Verify fuel vm b) = snd (conflictScan fuel vm b atx).
Proof.
  intros Htx Hatx Hgen Hgate Hp Hst.
  unfold Block_Verify, Block_Parent. rewrite Hgate, Htx, Hp, Hst, Hatx.
  rewrite bool_decide_eq_false_2 by done.
  by destruct (conflictScan fuel vm b atx) as [[[e|]| |] vm'].
Qed.

(** The entries the scan leaves when it meets no resident entry and every
    block it walks carries an atomic transaction. *)
Lemma conflictScan_leaves_sound_cache n fuel vm b atx parent path :
  getBlock vm (ParentHash (ethBlock b)) = Some parent ->
  ancestorPath n vm (ParentHash (ethBlock b)) = Some path ->
  (n <= fuel)%nat ->
  Forall (atomicTxKnown vm) path ->
  Forall (carriesAtomicTx vm) path ->
  (forall p, p ∈ path -> cache_Get vm (Block_ID p) = None) ->
  NoDup (Block_ID <$> path) ->
  cacheSoundOn (snd (conflictScan fuel vm b atx)) path
  /\ forall p, p ∈ path -> is_Some (cache_Get (snd (conflictScan fuel vm b atx)) (Block_ID p)).
Proof.
  intros Hp Hpath Hle Hknown Hcarry Hmiss Hnd.
  unfold conflictScan, Block_Parent. rewrite Hp.
  destruct (newSet vm) as [l0 vm1] eqn:Hnew.
  assert (Hvm1 : vm1 = snd (newSet vm)) by (by rewrite Hnew).
  assert (Hl0 : l0 = length (setStore vm)) by (by injection Hnew).
  rewrite Hvm1, walkAncestry_newSet.
  rewrite (walkAncestry_spec fuel vm _ parent path [] l0 Hp
             (ancestorPath_mono _ _ _ _ _ Hpath Hle)).
  rewrite (firstHit_miss vm path Hmiss). simpl.
  destruct (memoizePath_entries vm (rev path)) with (vm := snd (newSet vm)) (inputs := l0)
    as (vm' & Hrun & Hent & _ & _).
  { rewrite rev_reverse. by apply Forall_reverse. }
  { rewrite rev_reverse, fmap_reverse. by rewrite reverse_Permutation. }
  { subst l0. simpl. rewrite length_app. simpl. lia. }
  change (snd (newSet vm)) with (set_setStore vm (setStore vm ++ [∅])) in *.
  rewrite Hrun.
  assert (Hfresh : deref (set_setStore vm (setStore vm ++ [∅])) l0 = ∅).
  { subst l0. apply (deref_newSet_fresh vm). }
  assert (Hentry : forall (k : nat) p,
             path !! k = Some p ->
             exists l, cache_Get vm' (Block_ID p) = Some l
                       /\ setStore vm' !! l = Some (ancestorInputs vm (drop k path))).
  { intros k p Hk.
    destruct (Hent (rev (drop (S k) path)) p (rev (take k path))) as (l & Hl & Hset).
    { rewrite <- (take_drop_middle _ _ _ Hk) at 1.
      rewrite rev_app_distr. simpl. by rewrite <- app_assoc. }
    exists l. split; [done|]. rewrite Hset. f_equal.
    rewrite decide_True.
    2: { rewrite Forall_forall in Hcarry. apply Hcarry.
         apply list_elem_of_lookup. eauto. }
    rewrite Hfresh, (drop_S _ _ _ Hk).
    change (rev (drop (S k) path) ++ [p]) with (rev (p :: drop (S k) path)).
    rewrite ancestorInputs_rev. set_solver. }
  assert (Hfinal : forall r : Outcome (option Error) * VM,
             snd r = vm' ->
             cacheSoundOn (snd r) path
             /\ forall p, p ∈ path -> is_Some (cache_Get (snd r) (Block_ID p))).
  { intros r ->. split.
    - intros k p l Hk Hc. destruct (Hentry k p Hk) as (l' & Hl' & Hset).
      rewrite Hl' in Hc. injection Hc as <-. exact Hset.
    - intros p Hin. apply list_elem_of_lookup in Hin as [k Hk].
      destruct (Hentry k p Hk) as (l & Hl & _). eauto. }
  apply Hfinal. by destruct (conflicts vm' l0 _).
Qed.


(** The verdict of Verify on a sound cache, by the scan. *)
Lemma Verify_conflict_verdict n fuel vm b tx atx parent pState path :
  getAtomicTx vm (ethBlock b) = Some tx ->
  UnsignedTx_ tx = ImportTx atx ->
  Hash (ethBlock b) ≠ genesisHash vm ->
  IsBootstrapped (ctx vm) && gasPriceTooLow b = false ->
  getBlock vm (ParentHash (ethBlock b)) = Some parent ->
  chain_BlockState (ethBlock parent) = inr pState ->
  ancestorPath n vm (ParentHash (ethBlock b)) = Some path ->
  (n <= fuel)%nat ->
  Forall (atomicTxKnown vm) path ->
  cacheSoundOn vm path ->
  fst (Block_Verify fuel vm b) = Returned (Some errAtomicInputConflict)
  <-> exists i, i ∈ UnsignedImportTx_InputUTXOs atx /\ i ∈ ancestorInputs vm path.
Proof.
  intros Htx Hatx Hgen Hgate Hp Hst Hpath Hle Hknown Hsound.
  destruct (conflictScan_spec n fuel vm b atx parent path Hp Hpath Hle Hknown Hsound)
    as [vm' Hscan].
  unfold Block_Verify, Block_Parent. rewrite Hgate, Htx, Hp, Hst, Hatx.
  rewrite bool_decide_eq_false_2 by done. rewrite Hscan.
  case_bool_decide as Hc; simpl; [done|].
  split; [|done]. intros H. by apply verifyAtomicTx_not_conflict in H.
Qed.

(** When every ancestor back to the Accepted one carries an import or export
    transaction and none has a resident entry, the entries that the Verify of
    an import block leaves do not change the verdict: any import block on the
    same parent is refused with errAtomicInputConflict after that Verify
    exactly when it is refused without it. *)
Theorem Verify_verdict_survives_memoization (n fuel : nat) (vm : VM) (b b2 : Block)
    (tx tx2 : Tx) (atx atx2 : UnsignedImportTx) (parent : Block) (pState : StateDB)
    (path : list Block) :
  getAtomicTx vm (ethBlock b) = Some tx ->
  UnsignedTx_ tx = ImportTx atx ->
  Hash (ethBlock b) ≠ genesisHash vm ->
  IsBootstrapped (ctx vm) && gasPriceTooLow b = false ->
  getBlock vm (ParentHash (ethBlock b)) = Some parent ->
  chain_BlockState (ethBlock parent) = inr pState ->
  ancestorPath n vm (ParentHash (ethBlock b)) = Some path ->
  (n <= fuel)%nat ->
  Forall (atomicTxKnown vm) path ->
  Forall (carriesAtomicTx vm) path ->
  (forall p, p ∈ path -> cache_Get vm (Block_ID p) = None) ->
  NoDup (Block_ID <$> path) ->
  getAtomicTx vm (ethBlock b2) = Some tx2 ->
  UnsignedTx_ tx2 = ImportTx atx2 ->
  Hash (ethBlock b2) ≠ genesisHash vm ->
  IsBootstrapped (ctx vm) && gasPriceTooLow b2 = false ->
  ParentHash (ethBlock b2) = ParentHash (ethBlock b) ->
  fst (Block_Verify fuel (snd (Block_Verify fuel vm b)) b2)
  = Returned (Some errAtomicInputConflict)
  <-> fst (Block_Verify fuel vm b2) = Returned (Some errAtomicInputConflict).
Proof.
  intros Htx Hatx Hgen Hgate Hp Hst Hpath Hle Hknown Hcarry Hmiss Hnd
    Htx2 Hatx2 Hgen2 Hgate2 Hpar.
  rewrite (Verify_state_is_scan_state fuel vm b tx atx parent pState) by done.
  destruct (conflictScan_ledger fuel vm b atx) as [(Hc & _ & Hg & Hb & Hs & _ & _) _].
  destruct (conflictScan_leaves_sound_cache n fuel vm b atx parent path)
    as [Hsound _]; try done.
  set (vm' := snd (conflictScan fuel vm b atx)) in *.
  rewrite (Verify_conflict_verdict n fuel vm' b2 tx2 atx2 parent pState path);
    try done.
  - rewrite (Verify_conflict_verdict n fuel vm b2 tx2 atx2 parent pState path);
      try done.
    + by rewrite Hpar.
    + by rewrite Hpar.
    + intros k p l Hk Hcache. rewrite Hmiss in Hcache; [done|].
      apply list_elem_of_lookup. eauto.
  - by rewrite Hg.
  - by rewrite Hc.
  - unfold getBlock. by rewrite Hb, Hpar.
  - rewrite Hpar, <- Hpath. by apply ancestorPath_ext.
Qed.

End MoreProofs.

(** * The further properties on the concrete chain *)

Lemma sample_state_nonneg :
  (forall a, 0 <= GetBalance sampleState a)
  /\ (forall a coin, 0 <= GetBalanceMultiCoin sampleState a coin).
Proof.
  split.
  - intros a. unfold GetBalance, sampleState. simpl.
    destruct (decide (mkAddr 1 = a)) as [<-|Hne].
    + by rewrite lookup_singleton_eq.
    + by rewrite lookup_singleton_ne.
  - intros a coin. unfold GetBalanceMultiCoin, sampleState. simpl.
    by rewrite lookup_empty.
Qed.

Lemma sample_keyed : keyedByID (sampleVM false).
Proof.
  intros k blk Hk. simpl in Hk.
  repeat (apply lookup_insert_Some in Hk as [[<- <-]|[_ Hk]]; [done|]).
  by rewrite lookup_empty in Hk.
Qed.

Lemma sample_known_QP vm : Forall (atomicTxKnown vm) [blkQ; blkP1].
Proof.
  repeat constructor; intros tx Htx; vm_compute in Htx; injection Htx as <-; by eexists.
Qed.

Lemma sample_carry_QP vm : Forall (carriesAtomicTx vm) [blkQ; blkP1].
Proof. repeat constructor; by eexists. Qed.

(** The account of address 3 is named by no input of the transfer. *)
Lemma EVMStateTransfer_frame_witness :
  GetBalance (snd (UnsignedExportTx_EVMStateTransfer exportTwoInputs (sampleVM false)
                     sampleState)) (mkAddr 3) = GetBalance sampleState (mkAddr 3)
  /\ GetNonce (snd (UnsignedExportTx_EVMStateTransfer exportTwoInputs (sampleVM false)
                      sampleState)) (mkAddr 3) = GetNonce sampleState (mkAddr 3)
  /\ forall coin,
       GetBalanceMultiCoin (snd (UnsignedExportTx_EVMStateTransfer exportTwoInputs
                                   (sampleVM false) sampleState)) (mkAddr 3) coin
       = GetBalanceMultiCoin sampleState (mkAddr 3) coin.
Proof.
  apply (EVMStateTransfer_frame exportTwoInputs (sampleVM false) sampleState (mkAddr 3)).
  simpl. rewrite !not_elem_of_cons. repeat split; [discriminate..|apply not_elem_of_nil].
Defined.

Lemma EVMStateTransfer_no_overdraft_witness :
  (forall a, 0 <= GetBalance (snd (UnsignedExportTx_EVMStateTransfer exportTwoNonces
                                     (sampleVM false) sampleState)) a)
  /\ (forall a coin,
         0 <= GetBalanceMultiCoin (snd (UnsignedExportTx_EVMStateTransfer exportTwoNonces
                                          (sampleVM false) sampleState)) a coin).
Proof.
  apply (EVMStateTransfer_no_overdraft exportTwoNonces (sampleVM false) sampleState);
    apply sample_state_nonneg.
Defined.

(** The two inputs on the address 1 pass with the nonces 3 and 4. *)
Lemma EVMStateTransfer_consecutive_nonces_witness :
  Nonce (mkInput 1 5 10 4) = wrap64 (Nonce (mkInput 1 4 10 3) + 1)
  /\ (0 <= Nonce (mkInput 1 4 10 3) < 2 ^ 64 ->
      Nonce (mkInput 1 5 10 4) ≠ Nonce (mkInput 1 4 10 3)).
Proof.
  apply (EVMStateTransfer_consecutive_nonces exportTwoNonces (sampleVM false) sampleState
           [] [] (mkInput 1 4 10 3) (mkInput 1 5 10 4)).
  - reflexivity.
  - reflexivity.
  - vm_compute. reflexivity.
Defined.

(** The two outputs of [exportSorted] in the shared memory of the X-Chain. *)
Lemma ExportTx_Accept_stores_outputs_witness :
  (forall (j : nat) out,
      ExportedOutputs exportSorted !! j = Some out ->
      exists utxoBytes,
        Codec_Marshal (exportedUTXO exportSorted j out) = inr utxoBytes
        /\ sm_data (snd (UnsignedExportTx_Accept exportSorted sampleSM))
             !! (DestinationChain exportSorted, exportedKey exportSorted j)
           = Some {| Key := exportedKey exportSorted j; Value := utxoBytes;
                     Traits := Addrs (Out out) |})
  /\ (forall chain k,
         chain ≠ DestinationChain exportSorted
         \/ k ∉ exportedKey exportSorted <$> seq 0 (length (ExportedOutputs exportSorted)) ->
         sm_data (snd (UnsignedExportTx_Accept exportSorted sampleSM)) !! (chain, k)
         = sm_data sampleSM !! (chain, k)).
Proof.
  apply (ExportTx_Accept_stores_outputs exportSorted sampleSM).
  - vm_compute. reflexivity.
  - apply (bool_decide_unpack _). vm_compute. exact I.
Defined.

(** P1 and P2 accepted one after the other. *)
Lemma Accept_twice_witness :
  Database_Get (acceptedDB (snd (Block_Accept (snd (Block_Accept (sampleVM false) blkP1))
                                   blkP2)))
    (bigInt_Bytes (Number (ethBlock blkP1))) = Some (Block_ID blkP1).
Proof.
  apply (proj1 (proj2 (Accept_twice (sampleVM false) blkP1 blkP2 eq_refl)));
    vm_compute; discriminate.
Defined.

Lemma Parent_has_parent_hash_witness :
  SnowmanBlock_ID (Block_Parent (sampleVM false) blkOrphan) = ParentHash (ethBlock blkOrphan)
  /\ SnowmanBlock_ID (Block_Parent (sampleVM false) blkB) = ParentHash (ethBlock blkB).
Proof.
  split.
  - apply (proj1 (Parent_has_parent_hash (sampleVM false) blkOrphan sample_keyed)).
  - apply (proj1 (Parent_has_parent_hash (sampleVM false) blkB sample_keyed)).
Defined.

Lemma Verify_conflict_only_for_imports_witness :
  exists tx atx i,
    getAtomicTx (sampleVM false) (ethBlock blkB) = Some tx
    /\ UnsignedTx_ tx = ImportTx atx
    /\ i ∈ UnsignedImportTx_InputUTXOs atx.
Proof.
  apply (Verify_conflict_only_for_imports 3 (sampleVM false) blkB).
  vm_compute. reflexivity.
Defined.


(** C2 imports what its parent Q imports: it is refused after the Verify of
    its sibling C as it is before. *)
Lemma Verify_verdict_survives_memoization_witness :
  fst (Block_Verify 3 (snd (Block_Verify 3 (sampleVM false) blkC)) blkC2)
  = Returned (Some errAtomicInputConflict)
  <-> fst (Block_Verify 3 (sampleVM false) blkC2) = Returned (Some errAtomicInputConflict).
Proof.
  apply (Verify_verdict_survives_memoization 3 3 (sampleVM false) blkC blkC2
           (importOf (mkID 9)) (importOf (mkID 8)) (importBody (mkID 9))
           (importBody (mkID 8)) blkQ
           {| balance := ∅; balanceMultiCoin := ∅; nonce := ∅ |} [blkQ; blkP1]).
  - reflexivity.
  - reflexivity.
  - vm_compute. discriminate.
  - reflexivity.
  - vm_compute. reflexivity.
  - reflexivity.
  - vm_compute. reflexivity.
  - lia.
  - apply sample_known_QP.
  - apply sample_carry_QP.
  - intros p _. apply lookup_empty.
  - apply (bool_decide_unpack _). vm_compute. exact I.
  - reflexivity.
  - reflexivity.
  - vm_compute. discriminate.
  - reflexivity.
  - reflexivity.
Defined.

Section MoreProofs2.
Context `{Ext : Externals}.

#[local] Arguments UnsignedExportTx_Verify : simpl never.

(** ** newExportTx *)

(** When signing leaves the body of the transaction as it is, a transaction
    returned by newExportTx is an export to the X-Chain, on the network and
    blockchain of the context, with the one output asked for (asset, amount,
    recipient, threshold 1, no locktime); and it comes without an error
    exactly when the X-Chain id is not zero and its inputs and its output
    verify. *)
Theorem newExportTx_builds_verifiable (vm : VM) (assetID : ID) (amount : Z) (chainID : ID)
    (to : bytes) (keys : list bytes) (tx : Tx) (err : option Error) :
  (forall utx signers utx' creds,
      Tx_Sign utx signers = inr (utx', creds) -> sameBody utx utx') ->
  newExportTx vm assetID amount chainID to keys = (Some tx, err) ->
  exists t,
    UnsignedTx_ tx = ExportTx t
    /\ chainID = XChainID (ctx vm)
    /\ DestinationChain t = chainID
    /\ NetworkID t = ctx_NetworkID (ctx vm)
    /\ BlockchainID t = ctx_ChainID (ctx vm)
    /\ ExportedOutputs t
       = [ {| out_Asset := assetID;
              Out := {| Amt := amount; Locktime := 0; Threshold := 1; Addrs := [to] |} |} ]
    /\ (err = None
        <-> chainID ≠ zeroID
            /\ (forall i, i ∈ Ins t -> EVMInput_Verify i = None)
            /\ TransferableOutput_Verify
                 {| out_Asset := assetID;
                    Out := {| Amt := amount; Locktime := 0; Threshold := 1;
                              Addrs := [to] |} |} = None).
Proof.
  intros Hsign. unfold newExportTx, Equals.
  case_bool_decide as Hchain; simpl; [|done].
  destruct (if bool_decide (assetID = AVAXAssetID (ctx vm)) then _ else _) as [toBurn|];
    [|done].
  destruct (GetSpendableCanonical keys (AVAXAssetID (ctx vm)) toBurn) as [e|[ins signers]];
    [done|].
  destruct (if bool_decide (assetID ≠ AVAXAssetID (ctx vm)) then _ else _)
    as [e|[ins' signers']]; [done|].
  destruct (Tx_Sign _ signers') as [e|[utx creds]] eqn:Hs; [done|].
  apply Hsign in Hs as (Hflag & Hnet & Hbc & Hdest & Hins & Houts). simpl in *.
  unfold UnsignedExportTx_Verify, IsZero, Equals.
  rewrite Hflag, Hnet, Hbc, Hdest, Houts. simpl.
  rewrite (bool_decide_eq_true_2 (chainID = XChainID (ctx vm))) by done. simpl.
  rewrite (bool_decide_eq_false_2 (ctx_NetworkID (ctx vm) ≠ ctx_NetworkID (ctx vm)))
    by (intros ?; done).
  rewrite (bool_decide_eq_true_2 (ctx_ChainID (ctx vm) = ctx_ChainID (ctx vm))) by done.
  simpl.
  assert (Hfe : firstError EVMInput_Verify (Ins utx) = None
                <-> forall i, i ∈ Ins utx -> EVMInput_Verify i = None)
    by apply firstError_None.
  case_bool_decide as Hz; simpl.
  { intros [= <- <-]. exists utx. simpl. repeat split; try done.
    - intros (Hnz & _). done. }
  destruct (firstError EVMInput_Verify (Ins utx)) as [e|] eqn:Hfirst; simpl.
  { intros [= <- <-]. exists utx. repeat split; try done.
    intros (_ & Hall & _). apply Hfe in Hall. done. }
  destruct (TransferableOutput_Verify _) as [e|] eqn:Hout; simpl.
  { intros [= <- <-]. exists utx. repeat split; try done.
    intros (_ & _ & ?). done. }
  intros [= <- <-]. exists (set_syntacticallyVerified utx). simpl.
  repeat split; try done. by apply Hfe.
Qed.

(** ** Ancestors without imports *)

Lemma ancestorInputs_no_import vm path :
  Forall (carriesNoImport vm) path -> ancestorInputs vm path = ∅.
Proof.
  induction 1 as [|p rest Hp _ IH]; [done|].
  rewrite ancestorInputs_cons, IH.
  assert (blockInputs vm p = ∅) as ->; [|set_solver].
  unfold blockInputs. unfold carriesNoImport in Hp.
  destruct (getAtomicTx vm (ethBlock p)) as [tx|]; [|done].
  specialize (Hp tx).
  destruct (UnsignedTx_ tx) as [atx|etx|]; [|done|done].
  by destruct (Hp atx eq_refl).
Qed.

(** An import block is not refused for a conflict when no block between it
    and the most recent Accepted ancestor carries an import transaction:
    export blocks and blocks without an atomic transaction consume no UTXO. *)
Theorem Verify_no_conflict_without_imports (n fuel : nat) (vm : VM) (b : Block) (tx : Tx)
    (atx : UnsignedImportTx) (parent : Block) (pState : StateDB) (path : list Block) :
  getAtomicTx vm (ethBlock b) = Some tx ->
  UnsignedTx_ tx = ImportTx atx ->
  Hash (ethBlock b) ≠ genesisHash vm ->
  IsBootstrapped (ctx vm) && gasPriceTooLow b = false ->
  getBlock vm (ParentHash (ethBlock b)) = Some parent ->
  chain_BlockState (ethBlock parent) = inr pState ->
  ancestorPath n vm (ParentHash (ethBlock b)) = Some path ->
  (n <= fuel)%nat ->
  Forall (atomicTxKnown vm) path ->
  cacheSoundOn vm path ->
  Forall (carriesNoImport vm) path ->
  fst (Block_Verify fuel vm b) ≠ Returned (Some errAtomicInputConflict).
Proof.
  intros Htx Hatx Hgen Hgate Hp Hst Hpath Hle Hknown Hsound Hnoimp Hres.
  apply (Verify_conflict_verdict n fuel vm b tx atx parent pState path) in Hres;
    try done.
  destruct Hres as (i & _ & Hi).
  rewrite (ancestorInputs_no_import vm path Hnoimp) in Hi. set_solver.
Qed.

End MoreProofs2.

Lemma newExportTx_builds_verifiable_witness :
  exists t,
    UnsignedTx_ (default signedByFirst
                   (fst (newExportTx (sampleVM false) (mkID 10) 5 (mkID 2) (mkAddr 50)
                           [mkAddr 1]))) = ExportTx t
    /\ ExportedOutputs t = [mkOutput 10 5].
Proof.
  destruct (newExportTx (sampleVM false) (mkID 10) 5 (mkID 2) (mkAddr 50) [mkAddr 1])
    as [[tx|] err] eqn:Hrun; [|vm_compute in Hrun; discriminate].
  destruct (newExportTx_builds_verifiable (sampleVM false) (mkID 10) 5 (mkID 2) (mkAddr 50)
              [mkAddr 1] tx err) as (t & Ht & _ & _ & _ & _ & Houts & _).
  - intros utx signers utx' creds [= <- _]. by repeat split.
  - exact Hrun.
  - exists t. split; [exact Ht|exact Houts].
Defined.

(** F imports behind the export block E: no conflict. *)
Lemma Verify_no_conflict_without_imports_witness :
  fst (Block_Verify 2 sampleVM2 blkF) ≠ Returned (Some errAtomicInputConflict).
Proof.
  apply (Verify_no_conflict_without_imports 2 2 sampleVM2 blkF (importOf (mkID 7))
           (importBody (mkID 7)) blkE
           {| balance := ∅; balanceMultiCoin := ∅; nonce := ∅ |} [blkE]).
  - reflexivity.
  - reflexivity.
  - vm_compute. discriminate.
  - reflexivity.
  - vm_compute. reflexivity.
  - reflexivity.
  - vm_compute. reflexivity.
  - lia.
  - repeat constructor. intros tx Htx. vm_compute in Htx. injection Htx as <-. by eexists.
  - intros k p l _ Hc. unfold cache_Get in Hc. simpl in Hc. by rewrite lookup_empty in Hc.
  - repeat constructor. intros tx atx Htx. vm_compute in Htx. injection Htx as <-. done.
Defined.
